(** * readme.py: the dotfiles documentation viewer

    A shallow embedding of [.scripts/readme.py] and the properties of its
    file locator, content reader, formatters, alias extractor, exit codes
    and output sink.

    Conventions of the embedding.
    - A Python [str] is a [string]; its characters stand for the code
      points 0..255, and the character tables below ([isspace], [isdigit],
      [upper]) are those of CPython on that range.
    - A [pathlib.Path] is the list of its parts, as [PurePosixPath.parts].
    - Everything the program asks of its surroundings (environment
      variables, the file system, the pager process) is answered by a
      [world]; every such request and every [print] is recorded in a trace
      of [event]s.
    - Exceptions, [sys.exit] included, are the [Raise] outcome of the [IO]
      monad; [try_except] is Python's [try ... except].
    - A run starts from the parsed command line, [args]: what [argparse]
      does with a command line it rejects (a message and status 2) is
      not part of the embedding.
    - An existence test answers: [Path.exists] is a total function of the
      [world].  Where the interpreter lets the test itself raise, the run
      ends there by an exception nothing catches; no [world] stands for
      such surroundings, and the properties below do not speak of them. *)

From Stdlib Require Import List Bool Arith NArith Lia Ascii String Permutation Sorted.
Import ListNotations.

Local Open Scope list_scope.
Local Open Scope string_scope.

(* ================================================================== *)
(** * Python strings *)

Module Str.

(** The newline, and the two quote characters that [get_aliases] strips. *)
Definition nl_char : ascii := "010"%char.
Definition nl : string := String nl_char EmptyString.
Definition squote : ascii := "'"%char.
Definition dquote : ascii := "034"%char.

Definition is_empty (s : string) : bool :=
  match s with EmptyString => true | String _ _ => false end.

(** [s.startswith(p)] *)
Definition startswith (s p : string) : bool := String.prefix p s.

(** [sub in s] *)
Fixpoint contains (sub s : string) : bool :=
  String.prefix sub s ||
  match s with
  | EmptyString => false
  | String _ s' => contains sub s'
  end.

(** [s[n:]] *)
Fixpoint drop (n : nat) (s : string) : string :=
  match n, s with
  | O, _ => s
  | S _, EmptyString => EmptyString
  | S n', String _ s' => drop n' s'
  end.

(** [c * n] *)
Fixpoint repeat (c : ascii) (n : nat) : string :=
  match n with
  | O => EmptyString
  | S n' => String c (repeat c n')
  end.

(** [s.split(sep)] for a one-character separator: never the empty list. *)
Fixpoint split (sep : ascii) (s : string) : list string :=
  match s with
  | EmptyString => [EmptyString]
  | String c s' =>
      if Ascii.eqb c sep then EmptyString :: split sep s'
      else match split sep s' with
           | [] => [String c EmptyString]
           | h :: t => String c h :: t
           end
  end.

(** [sep.join(l)] *)
Fixpoint join (sep : string) (l : list string) : string :=
  match l with
  | [] => EmptyString
  | [x] => x
  | x :: l' => x ++ sep ++ join sep l'
  end.

(** [s.split(sep, 1)] when [sep in s]: the text before and after the
    first separator; [None] when there is no separator (Python then
    returns a one-element list, and unpacking it into two names raises
    [ValueError]). *)
Fixpoint split_first (sep : ascii) (s : string) : option (string * string) :=
  match s with
  | EmptyString => None
  | String c s' =>
      if Ascii.eqb c sep then Some (EmptyString, s')
      else match split_first sep s' with
           | Some (a, b) => Some (String c a, b)
           | None => None
           end
  end.

(** [s.replace(old, new)] for a one-character [old], the only way the
    program calls it. *)
Fixpoint replace (old : ascii) (new : string) (s : string) : string :=
  match s with
  | EmptyString => EmptyString
  | String c s' =>
      if Ascii.eqb c old then new ++ replace old new s'
      else String c (replace old new s')
  end.

Definition between (lo hi : nat) (c : ascii) : bool :=
  let n := nat_of_ascii c in ((lo <=? n) && (n <=? hi))%nat.

(** [c.isspace()] on the code points 0..255: TAB..CR, FS..US, space,
    NEL and the no-break space. *)
Definition isspace (c : ascii) : bool :=
  between 9 13 c || between 28 32 c || between 133 133 c || between 160 160 c.

(** [c.isdigit()] on the code points 0..255: 0-9 and the superscripts
    two, three and one. *)
Definition isdigit (c : ascii) : bool :=
  between 48 57 c || between 178 179 c || between 185 185 c.

(** [c.upper()] on the code points 0..255.  The sharp s becomes [SS];
    the micro sign and y-diaeresis, whose capitals lie beyond 255, are
    kept: like their capitals they are no ASCII letter. *)
Definition upper_char (c : ascii) : string :=
  let n := nat_of_ascii c in
  if between 97 122 c then String (ascii_of_nat (n - 32)) EmptyString
  else if between 223 223 c then "SS"
  else if between 224 254 c && negb (n =? 247)%nat
       then String (ascii_of_nat (n - 32)) EmptyString
  else String c EmptyString.

Fixpoint upper (s : string) : string :=
  match s with
  | EmptyString => EmptyString
  | String c s' => upper_char c ++ upper s'
  end.

(** [s.lstrip(chars)], [s.rstrip(chars)], [s.strip(chars)] for a set of
    characters given as a predicate: every leading and every trailing
    character of the set goes. *)
Fixpoint lstrip_by (p : ascii -> bool) (s : string) : string :=
  match s with
  | EmptyString => EmptyString
  | String c s' => if p c then lstrip_by p s' else s
  end.

Fixpoint rstrip_by (p : ascii -> bool) (s : string) : string :=
  match s with
  | EmptyString => EmptyString
  | String c s' =>
      let r := rstrip_by p s' in
      if p c && is_empty r then EmptyString else String c r
  end.

Definition strip_by (p : ascii -> bool) (s : string) : string :=
  rstrip_by p (lstrip_by p s).

(** [s.strip()] *)
Definition strip (s : string) : string := strip_by isspace s.

(** [s.strip(q)] for [q] the two-character string of both quotes *)
Definition is_quote (c : ascii) : bool :=
  Ascii.eqb c squote || Ascii.eqb c dquote.
Definition strip_quotes (s : string) : string := strip_by is_quote s.

(** [f"{s:<15}"]: pad with spaces on the right up to the width; a longer
    text is kept whole. *)
Definition ljust (width : nat) (s : string) : string :=
  s ++ repeat " "%char (width - String.length s).

(** [s.rfind(c)] *)
Fixpoint rfind (c : ascii) (s : string) : option nat :=
  match s with
  | EmptyString => None
  | String a s' =>
      match rfind c s' with
      | Some i => Some (S i)
      | None => if Ascii.eqb a c then Some 0 else None
      end
  end.

(** [s.lower()] is only applied to a suffix compared with ASCII
    literals; on 0..255 it moves A-Z and the capitals 192..222 (but
    215). *)
Definition lower_char (c : ascii) : ascii :=
  let n := nat_of_ascii c in
  if between 65 90 c then ascii_of_nat (n + 32)
  else if between 192 222 c && negb (n =? 215)%nat then ascii_of_nat (n + 32)
  else c.

Fixpoint lower (s : string) : string :=
  match s with
  | EmptyString => EmptyString
  | String c s' => String (lower_char c) (lower s')
  end.

(** [s[0]] and [s[-1]], when there is one, and a test of it. *)
Definition first_char (s : string) : option ascii :=
  match s with
  | EmptyString => None
  | String a _ => Some a
  end.

Fixpoint last_char (s : string) : option ascii :=
  match s with
  | EmptyString => None
  | String a EmptyString => Some a
  | String _ s' => last_char s'
  end.

Definition holds (p : ascii -> bool) (o : option ascii) : bool :=
  match o with
  | Some c => p c
  | None => false
  end.

End Str.

(* ================================================================== *)
(** * ANSI color codes for terminal output *)

Module Colors.
Definition esc : ascii := "027"%char.
Definition RESET : string := String esc "[0m".
Definition BOLD : string := String esc "[1m".
Definition RED : string := String esc "[91m".
Definition GREEN : string := String esc "[92m".
Definition YELLOW : string := String esc "[93m".
Definition BLUE : string := String esc "[94m".
Definition PURPLE : string := String esc "[95m".
Definition CYAN : string := String esc "[96m".
End Colors.

(* ================================================================== *)
(** * pathlib *)

Module Pathlib.

(** The parts of a path; the root, when there is one, is the first part:
    [/], or [//] for a path that begins with exactly two slashes, which
    POSIX lets differ from [/] and pathlib keeps. *)
Definition Path : Type := list string.

Definition keep_part (s : string) : bool :=
  negb (Str.is_empty s) && negb (String.eqb s ".").

Definition is_root (s : string) : bool :=
  String.eqb s "/" || String.eqb s "//".

(** [Path(s)]: split at the separators; empty and [.] components are
    dropped. *)
Definition of_string (s : string) : Path :=
  let comps := filter keep_part (Str.split "/"%char s) in
  if Str.startswith s "//" && negb (Str.startswith s "///") then "//" :: comps
  else if Str.startswith s "/" then "/" :: comps
  else comps.

Definition is_absolute (p : Path) : bool :=
  match p with
  | r :: _ => is_root r
  | [] => false
  end.

(** [p / s] *)
Definition joinpath (p : Path) (s : string) : Path :=
  let q := of_string s in
  if is_absolute q then q else (p ++ q)%list.

(** [p.name]: the last part, empty for a root and for [Path('.')]. *)
Definition name (p : Path) : string :=
  let l := last p EmptyString in
  if is_root l then EmptyString else l.

(** The position of the dot that starts the suffix of a name: the last
    dot, unless it is the first or the last character (CPython up to
    3.13). *)
Definition suffix_dot (n : string) : option nat :=
  match Str.rfind "."%char n with
  | Some i => if ((0 <? i) && (i <? String.length n - 1))%nat then Some i else None
  | None => None
  end.

(** [p.suffix] and [p.stem] *)
Definition suffix (p : Path) : string :=
  match suffix_dot (name p) with
  | Some i => Str.drop i (name p)
  | None => EmptyString
  end.

Definition stem (p : Path) : string :=
  match suffix_dot (name p) with
  | Some i => String.substring 0 i (name p)
  | None => name p
  end.

(** [str(p)] *)
Definition to_string (p : Path) : string :=
  match p with
  | [] => "."
  | r :: rest =>
      if is_root r then r ++ Str.join "/" rest
      else Str.join "/" p
  end.

End Pathlib.
Import Pathlib.

(* ================================================================== *)
(** * The surroundings of a run *)

Inductive encoding := Utf8 | Latin1.

(** The exceptions that reach the program's handlers.  [OSError] stands
    for whatever [Exception] other than a decoding error [open] or [read]
    raise (a missing file, denied permission, a directory), and for what
    [subprocess.run] raises when the program is there but cannot be
    started (a [PermissionError], not a [FileNotFoundError]);
    [SystemExit] is no [Exception]. *)
Inductive exception :=
| UnicodeDecodeError (msg : string)
| OSError (msg : string)
| FileNotFoundError (msg : string)
| CalledProcessError (returncode : nat)
| SystemExit (code : nat).

(** [str(e)]; the program formats it for the first three only. *)
Definition exc_str (e : exception) : string :=
  match e with
  | UnicodeDecodeError m | OSError m | FileNotFoundError m => m
  | CalledProcessError _ => "Command returned non-zero exit status."
  | SystemExit _ => EmptyString
  end.

(** [isinstance(e, C)] for the classes named in [except] clauses. *)
Definition is_UnicodeDecodeError (e : exception) : bool :=
  match e with UnicodeDecodeError _ => true | _ => false end.

Definition is_Exception (e : exception) : bool :=
  match e with SystemExit _ => false | _ => true end.

Definition is_CalledProcessError_or_FileNotFoundError (e : exception) : bool :=
  match e with
  | CalledProcessError _ | FileNotFoundError _ => true
  | _ => false
  end.

(** What opening a file for reading with an encoding and reading it whole
    gives: the text; a decoding error; or another failure of [open] or
    [read]. *)
Inductive read_answer :=
| Text (s : string)
| Undecodable (msg : string)
| Unreadable (msg : string).

(** What [subprocess.run(argv, input=..., text=True, check=True)] does:
    the child ran and returned 0; the program was not found
    ([FileNotFoundError]); the child returned a non-zero status
    ([CalledProcessError]); the program could not be started for another
    reason, such as an empty name or a file that may not be executed
    (another [OSError]). *)
Inductive run_answer :=
| Completed
| NotFound (msg : string)
| Failed (returncode : nat)
| Refused (msg : string).

Record world := {
  environ : string -> option string;
  home : Path;
  cwd : Path;
  path_exists : Path -> bool;
  (** the entry names of a directory, in the order the system lists
      them; nothing for what is not a directory *)
  scandir : Path -> list string;
  open_read : Path -> encoding -> read_answer;
  subprocess_run : list string -> string -> run_answer;
  (** [markdown.markdown(content, extensions=[...])] when the import of
      [markdown] succeeded ([MARKDOWN_AVAILABLE]) *)
  markdown : option (string -> string)
}.

Inductive event :=
| EnvGet (var : string)
| Exists (p : Path)
| Glob (p : Path) (pattern : string)
| Open (p : Path) (enc : encoding)
| Run (argv : list string) (input : string)
| Print (s : string).

(* ================================================================== *)
(** * The IO monad: a trace and either a value or a raised exception *)

Inductive outcome (A : Type) :=
| Done (a : A)
| Raise (e : exception).
Arguments Done {A} a.
Arguments Raise {A} e.

Definition IO (A : Type) : Type := world -> list event * outcome A.

Definition ret {A} (a : A) : IO A := fun _ => ([], Done a).

Definition raise {A} (e : exception) : IO A := fun _ => ([], Raise e).

Definition bind {A B} (m : IO A) (k : A -> IO B) : IO B :=
  fun w =>
    match m w with
    | (t, Done a) => let '(t', r) := k a w in ((t ++ t')%list, r)
    | (t, Raise e) => (t, Raise e)
    end.

Notation "x <- m ;; k" := (bind m (fun x => k))
  (at level 61, m at next level, right associativity).
Notation "m ;;; k" := (bind m (fun _ => k))
  (at level 61, right associativity).

(** [try: body except C1: h1 except C2: h2 ...]: the first clause whose
    class the exception is an instance of handles it; what a handler
    raises is not handled here. *)
Fixpoint find_handler {A} (clauses : list ((exception -> bool) * (exception -> IO A)))
    (e : exception) : option (IO A) :=
  match clauses with
  | [] => None
  | (cls, h) :: rest => if cls e then Some (h e) else find_handler rest e
  end.

Definition try_except {A} (body : IO A)
    (clauses : list ((exception -> bool) * (exception -> IO A))) : IO A :=
  fun w =>
    match body w with
    | (t, Done a) => (t, Done a)
    | (t, Raise e) =>
        match find_handler clauses e with
        | Some h => let '(t', r) := h w in ((t ++ t')%list, r)
        | None => (t, Raise e)
        end
    end.

(** The primitive requests. *)
Definition os_environ_get (var : string) : IO (option string) :=
  fun w => ([EnvGet var], Done (environ w var)).

Definition Path_home : IO Path := fun w => ([], Done (home w)).
Definition Path_cwd : IO Path := fun w => ([], Done (cwd w)).

(** [p.exists()], where the test answers.  (On CPython up to 3.13 the
    test itself raises for some errors of the system, such as a denied
    search permission or a name too long; the program catches nothing
    there, and the run is then ended by an uncaught exception.) *)
Definition exists_ (p : Path) : IO bool :=
  fun w => ([Exists p], Done (path_exists w p)).

(** A glob pattern of literal characters and [*]. *)
Fixpoint fnmatch (pat : string) : string -> bool :=
  match pat with
  | EmptyString => Str.is_empty
  | String c pat' =>
      if Ascii.eqb c "*"%char then
        fix star (s : string) : bool :=
          fnmatch pat' s ||
          match s with
          | EmptyString => false
          | String _ s' => star s'
          end
      else
        fun s =>
          match s with
          | EmptyString => false
          | String d s' => Ascii.eqb c d && fnmatch pat' s'
          end
  end.

(** [directory.glob(pattern)]: the entries whose name matches, in the
    order the directory lists them. *)
Definition glob_paths (w : world) (directory : Path) (pattern : string) : list Path :=
  map (fun n => (directory ++ [n])%list) (filter (fnmatch pattern) (scandir w directory)).

Definition glob (directory : Path) (pattern : string) : IO (list Path) :=
  fun w => ([Glob directory pattern], Done (glob_paths w directory pattern)).

Definition open_and_read (p : Path) (enc : encoding) : IO string :=
  fun w =>
    ([Open p enc],
     match open_read w p enc with
     | Text s => Done s
     | Undecodable m => Raise (UnicodeDecodeError m)
     | Unreadable m => Raise (OSError m)
     end).

Definition run (argv : list string) (input : string) : IO unit :=
  fun w =>
    ([Run argv input],
     match subprocess_run w argv input with
     | Completed => Done tt
     | NotFound m => Raise (FileNotFoundError m)
     | Failed c => Raise (CalledProcessError c)
     | Refused m => Raise (OSError m)
     end).

Definition print (s : string) : IO unit := fun _ => ([Print s], Done tt).

Definition sys_exit {A} (code : nat) : IO A := raise (SystemExit code).

(** The exit status of the process. *)
Definition exit_code {A} (r : outcome A) : nat :=
  match r with
  | Done _ => 0
  | Raise (SystemExit c) => c
  | Raise _ => 1
  end.

(* ================================================================== *)
(** * The program *)

(** A non-empty string is the only truthy [Optional[str]]. *)
Definition truthy (o : option string) : option string :=
  match o with
  | Some s => if Str.is_empty s then None else Some s
  | None => None
  end.

(** The loop over the candidates of [find_dotfiles_dir] and the final
    [return Path.cwd()]. *)
Fixpoint first_candidate (candidates : list Path) : IO Path :=
  match candidates with
  | [] => Path_cwd
  | candidate :: rest =>
      e <- exists_ candidate ;;
      if e then
        readmes <- glob candidate "README*" ;;
        match readmes with
        | _ :: _ => ret candidate
        | [] => first_candidate rest
        end
      else first_candidate rest
  end.

Definition search_candidates : IO Path :=
  h <- Path_home ;;
  c <- Path_cwd ;;
  first_candidate [joinpath h ".dotfiles-public"; joinpath h ".dotfiles"; c].

Definition find_dotfiles_dir : IO Path :=
  dotfiles_dir <- os_environ_get "DOTFILES_DIR" ;;
  match truthy dotfiles_dir with
  | Some d =>
      e <- exists_ (of_string d) ;;
      if e then ret (of_string d) else search_candidates
  | None => search_candidates
  end.

Definition doc_patterns : list string :=
  ["README*"; "INSTALL*"; "CONFIG*"; "CHEATSHEET*";
   "USAGE*"; "QUICKSTART*"; "SETUP*"; "GETTING_STARTED*"].

Definition priority_order : list string :=
  ["README"; "INSTALL"; "QUICKSTART"; "SETUP"; "CONFIG"; "USAGE"; "CHEATSHEET"].

(** [l.index(x)], [None] when [x not in l]. *)
Fixpoint list_index (x : string) (l : list string) : option nat :=
  match l with
  | [] => None
  | y :: l' =>
      if String.eqb x y then Some 0
      else match list_index x l' with
           | Some i => Some (S i)
           | None => None
           end
  end.

Definition sort_key (file_path : Path) : nat * string :=
  let name := Str.upper (stem file_path) in
  match list_index name priority_order with
  | Some i => (i, Pathlib.name file_path)
  | None => (List.length priority_order, Pathlib.name file_path)
  end.

(** [a < b] on the key tuples. *)
Definition key_lt (a b : nat * string) : bool :=
  (fst a <? fst b)%nat || ((fst a =? fst b)%nat && String.ltb (snd a) (snd b)).

(** [sorted(l, key=key)]: the stable sort; an element goes before the
    first later one whose key is not smaller than its own. *)
Section Sorted.
Context {A K : Type} (lt : K -> K -> bool) (key : A -> K).

Fixpoint insert (x : A) (l : list A) : list A :=
  match l with
  | [] => [x]
  | y :: l' => if lt (key y) (key x) then y :: insert x l' else x :: l
  end.

Fixpoint sorted (l : list A) : list A :=
  match l with
  | [] => []
  | x :: l' => insert x (sorted l')
  end.

(** [x] may stand before [y]: the key of [y] is not the smaller. *)
Definition not_after (x y : A) : Prop := lt (key y) (key x) = false.
End Sorted.

(** [files.extend(directory.glob(pattern))] for each pattern in turn. *)
Fixpoint collect (directory : Path) (patterns : list string) (files : list Path)
    : IO (list Path) :=
  match patterns with
  | [] => ret files
  | pattern :: rest =>
      found <- glob directory pattern ;;
      collect directory rest (files ++ found)%list
  end.

Definition find_doc_files (directory : Path) : IO (list Path) :=
  files <- collect directory doc_patterns [] ;;
  ret (sorted key_lt sort_key files).

Definition read_error (e : exception) : IO string :=
  ret ("Error reading file: " ++ exc_str e).

Definition read_file (file_path : Path) : IO string :=
  try_except (open_and_read file_path Utf8)
    [ (is_UnicodeDecodeError,
       fun _ => try_except (open_and_read file_path Latin1)
                  [ (is_Exception, read_error) ]);
      (is_Exception, read_error) ].

(** The branch of [format_terminal] taken by one line. *)
Definition format_terminal_line (line : string) : string :=
  if Str.startswith line "# " then
    Colors.BOLD ++ Colors.YELLOW ++ line ++ Colors.RESET
  else if Str.startswith line "## " then
    Colors.BOLD ++ Colors.CYAN ++ line ++ Colors.RESET
  else if Str.startswith line "### " then
    Colors.BOLD ++ line ++ Colors.RESET
  else if Str.startswith line "```" then
    Colors.PURPLE ++ line ++ Colors.RESET
  else if Str.startswith (Str.strip line) "$"
          || Str.startswith (Str.strip line) "sudo" then
    Colors.GREEN ++ line ++ Colors.RESET
  else if Str.startswith (Str.strip line) "- "
          || Str.startswith (Str.strip line) "* "
          || Str.startswith (Str.strip line) "+ " then
    Colors.CYAN ++ line ++ Colors.RESET
  else if negb (Str.is_empty (Str.strip line))
          && Str.holds Str.isdigit (Str.first_char line)
          && Str.contains ". " line then
    Colors.CYAN ++ line ++ Colors.RESET
  else line.

Definition terminal_header (file_path : Path) : list string :=
  [ Colors.BOLD ++ Colors.BLUE ++ Str.repeat "="%char 60 ++ Colors.RESET;
    Colors.BOLD ++ Colors.GREEN ++ name file_path ++ Colors.RESET;
    Colors.BOLD ++ Colors.BLUE ++ Str.repeat "="%char 60 ++ Colors.RESET;
    EmptyString ].

Definition format_terminal (content : string) (file_path : Path) : string :=
  let output := terminal_header file_path in
  let lines := Str.split Str.nl_char content in
  let output := (output ++ map format_terminal_line lines)%list in
  Str.join Str.nl output.

Definition html_template (title html_content : string) : string :=
  Str.nl ++
  "<!DOCTYPE html>" ++ Str.nl ++
  "<html>" ++ Str.nl ++
  "<head>" ++ Str.nl ++
  "    <title>" ++ title ++ "</title>" ++ Str.nl ++
  "    <style>" ++ Str.nl ++
  "        body { font-family: Arial, sans-serif; margin: 40px; line-height: 1.6; }" ++ Str.nl ++
  "        h1, h2, h3 { color: #333; }" ++ Str.nl ++
  "        code { background: #f4f4f4; padding: 2px 4px; border-radius: 3px; }" ++ Str.nl ++
  "        pre { background: #f4f4f4; padding: 10px; border-radius: 5px; overflow-x: auto; }" ++ Str.nl ++
  "        blockquote { border-left: 4px solid #ddd; padding-left: 20px; margin-left: 0; }" ++ Str.nl ++
  "    </style>" ++ Str.nl ++
  "</head>" ++ Str.nl ++
  "<body>" ++ Str.nl ++
  html_content ++ Str.nl ++
  "</body>" ++ Str.nl ++
  "</html>" ++ Str.nl.

Definition is_markup_suffix (file_path : Path) : bool :=
  let s := Str.lower (suffix file_path) in
  String.eqb s ".md" || String.eqb s ".markdown".

(** Whether [format_html] hands the content to the markdown library:
    the library is there and the suffix is one of its two. *)
Definition delegate (md : option (string -> string)) (file_path : Path)
    : option (string -> string) :=
  match md with
  | Some render => if is_markup_suffix file_path then Some render else None
  | None => None
  end.

(** [md] is the [markdown] of the world: [None] when the library is not
    available. *)
Definition format_html (md : option (string -> string))
    (content : string) (file_path : Path) : string :=
  let html_content :=
    match delegate md file_path with
    | Some render => render content
    | None =>
        let content := Str.replace ">"%char "&gt;"
                         (Str.replace "<"%char "&lt;"
                            (Str.replace "&"%char "&amp;" content)) in
        let content := Str.replace Str.nl_char ("<br>" ++ Str.nl) content in
        "<pre>" ++ content ++ "</pre>"
    end in
  html_template (name file_path) html_content.

(** The state of the loop of [get_aliases]: the section last printed and
    the lines put out so far. *)
Record alias_state := {
  current_section : option string;
  output : list string
}.

Definition section_header (section : string) : list string :=
  [Colors.BOLD ++ Colors.YELLOW ++ section ++ Colors.RESET; EmptyString].

Definition alias_entry (alias_name alias_cmd : string) : string :=
  "  " ++ Colors.CYAN ++ Str.ljust 15 (Str.strip alias_name) ++ Colors.RESET
       ++ " " ++ alias_cmd.

Definition same_section (section : string) (current : option string) : bool :=
  match current with
  | Some c => String.eqb section c
  | None => false
  end.

(** One turn of the loop. *)
Definition alias_step (st : alias_state) (line : string) : alias_state :=
  let line := Str.strip line in
  if Str.startswith line "# " && negb (Str.startswith line "##") then
    let section := Str.strip (Str.drop 2 line) in
    if negb (same_section section (current_section st)) then
      {| current_section := Some section;
         output := (output st ++ section_header section)%list |}
    else st
  else if Str.startswith line "alias " then
    let alias_def := Str.drop 6 line in
    if Str.contains "=" alias_def then
      match Str.split_first "="%char alias_def with
      | Some (alias_name, alias_cmd) =>
          let alias_cmd := Str.strip_quotes alias_cmd in
          {| current_section := current_section st;
             output := (output st ++ [alias_entry alias_name alias_cmd])%list |}
      | None => st
      end
    else st
  else st.

Definition aliases_title : list string :=
  [Colors.BOLD ++ Colors.GREEN ++ "Available Aliases:" ++ Colors.RESET; EmptyString].

(** The report for the content of the aliases file. *)
Definition aliases_report (content : string) : string :=
  let lines := Str.split Str.nl_char content in
  let st := fold_left alias_step lines
              {| current_section := None; output := aliases_title |} in
  Str.join Str.nl (output st).

Definition get_aliases : IO string :=
  dotfiles_dir <- find_dotfiles_dir ;;
  let aliases_file := joinpath dotfiles_dir ".bash_aliases" in
  e <- exists_ aliases_file ;;
  if negb e then ret "No .bash_aliases file found."
  else
    content <- read_file aliases_file ;;
    ret (aliases_report content).

Definition display_with_pager (content : string) : IO unit :=
  try_except
    (p <- os_environ_get "PAGER" ;;
     let pager := match p with Some v => v | None => "less" end in
     if String.eqb pager "less" then run [pager; "-R"; "-F"; "-X"] content
     else run [pager] content)
    [ (is_CalledProcessError_or_FileNotFoundError, fun _ => print content) ].

(** The parsed command line. *)
Inductive format := terminal | html | text.

Record args := {
  args_file : option string;
  args_aliases : bool;
  args_format : format;
  args_dir : option string;
  args_no_pager : bool
}.

Definition is_terminal (f : format) : bool :=
  match f with terminal => true | _ => false end.

Definition is_html (f : format) : bool :=
  match f with html => true | _ => false end.

Definition render (w_markdown : option (string -> string)) (f : format)
    (content : string) (file_path : Path) : string :=
  match f with
  | html => format_html w_markdown content file_path
  | text => "=== " ++ name file_path ++ " ===" ++ Str.nl ++ Str.nl ++ content
  | terminal => format_terminal content file_path
  end.

Definition markdown_lib : IO (option (string -> string)) :=
  fun w => ([], Done (markdown w)).

(** The loop that fills [output_parts]. *)
Fixpoint output_parts (f : format) (files_to_show : list Path) : IO (list string) :=
  match files_to_show with
  | [] => ret []
  | file_path :: rest =>
      content <- read_file file_path ;;
      md <- markdown_lib ;;
      parts <- output_parts f rest ;;
      ret (render md f content file_path :: parts)
  end.

(** The directory of the run: [--dir] when given, else the resolver. *)
Definition resolve_dir (a : args) : IO Path :=
  match truthy (args_dir a) with
  | Some d => ret (of_string d)
  | None => find_dotfiles_dir
  end.

(** The display of the aliases report. *)
Definition show_aliases (a : args) (aliases_content : string) : IO unit :=
  if args_no_pager a || negb (is_terminal (args_format a))
  then print aliases_content
  else display_with_pager aliases_content.

(** The display of the rendered files. *)
Definition show_output (a : args) (final_output : string) : IO unit :=
  if is_html (args_format a) then print final_output
  else if args_no_pager a || negb (is_terminal (args_format a))
  then print final_output
  else display_with_pager final_output.

Definition file_not_found (file_path : Path) : string :=
  Colors.RED ++ "Error: File not found: " ++ to_string file_path ++ Colors.RESET.

Definition no_docs_found (dotfiles_dir : Path) : string :=
  Colors.YELLOW ++ "No documentation files found in "
    ++ to_string dotfiles_dir ++ Colors.RESET.

(** The files to display: the one named by [--file], else the ones found. *)
Definition files_to_show (a : args) (dotfiles_dir : Path) : IO (list Path) :=
  match truthy (args_file a) with
  | Some f =>
      let file_path := joinpath dotfiles_dir f in
      e <- exists_ file_path ;;
      if negb e then print (file_not_found file_path) ;;; sys_exit 1
      else ret [file_path]
  | None =>
      found <- find_doc_files dotfiles_dir ;;
      match found with
      | [] => print (no_docs_found dotfiles_dir) ;;; sys_exit 1
      | _ :: _ => ret found
      end
  end.

Definition dir_not_found (dotfiles_dir : Path) : string :=
  Colors.RED ++ "Error: Dotfiles directory not found: "
    ++ to_string dotfiles_dir ++ Colors.RESET.

Definition main (a : args) : IO unit :=
  dotfiles_dir <- resolve_dir a ;;
  e <- exists_ dotfiles_dir ;;
  (if negb e then print (dir_not_found dotfiles_dir) ;;; sys_exit 1
   else ret tt) ;;;
  if args_aliases a then
    aliases_content <- get_aliases ;;
    show_aliases a aliases_content
  else
    files <- files_to_show a dotfiles_dir ;;
    parts <- output_parts (args_format a) files ;;
    let final_output := Str.join (Str.nl ++ Str.nl) parts in
    show_output a final_output.

(** The whole process: the trace and the exit status. *)
Definition run_main (a : args) (w : world) : list event * nat :=
  let '(t, r) := main a w in (t, exit_code r).

(* ================================================================== *)
(** * The vocabulary of the properties *)

(** [c in s] for a character. *)
Fixpoint has_char (c : ascii) (s : string) : bool :=
  match s with
  | EmptyString => false
  | String a s' => Ascii.eqb a c || has_char c s'
  end.

(** Every character of [s] satisfies [p]. *)
Fixpoint all_chars (p : ascii -> bool) (s : string) : bool :=
  match s with
  | EmptyString => true
  | String a s' => p a && all_chars p s'
  end.

(** The order of the key tuples, by the index and then the name. *)
Definition key_le (a b : nat * string) : Prop :=
  fst a < fst b \/ (fst a = fst b /\ String.leb (snd a) (snd b) = true).

(** The classes of a line in the terminal formatter, in the order they
    are tested. *)
Inductive line_class :=
| Heading1 | Heading2 | Heading3
| CodeFence
| Prompt
| Bullet | Numbered
| Plain.

Definition rank (c : line_class) : nat :=
  match c with
  | Heading1 => 0 | Heading2 => 1 | Heading3 => 2
  | CodeFence => 3
  | Prompt => 4
  | Bullet => 5 | Numbered => 6
  | Plain => 7
  end.

(** The prefix or shape rule of each class; every line is fit for
    [Plain]. *)
Definition fits (c : line_class) (line : string) : bool :=
  match c with
  | Heading1 => Str.startswith line "# "
  | Heading2 => Str.startswith line "## "
  | Heading3 => Str.startswith line "### "
  | CodeFence => Str.startswith line "```"
  | Prompt => Str.startswith (Str.strip line) "$"
              || Str.startswith (Str.strip line) "sudo"
  | Bullet => Str.startswith (Str.strip line) "- "
              || Str.startswith (Str.strip line) "* "
              || Str.startswith (Str.strip line) "+ "
  | Numbered => negb (Str.is_empty (Str.strip line))
                && Str.holds Str.isdigit (Str.first_char line)
                && Str.contains ". " line
  | Plain => true
  end.

Definition all_classes : list line_class :=
  [Heading1; Heading2; Heading3; CodeFence; Prompt; Bullet; Numbered; Plain].

(** The first class, in the order of the tests, that the line is fit
    for. *)
Definition classify (line : string) : line_class :=
  match find (fun c => fits c line) all_classes with
  | Some c => c
  | None => Plain
  end.

(** The color and style codes put before a line of the class. *)
Definition style (c : line_class) : option string :=
  match c with
  | Heading1 => Some (Colors.BOLD ++ Colors.YELLOW)
  | Heading2 => Some (Colors.BOLD ++ Colors.CYAN)
  | Heading3 => Some Colors.BOLD
  | CodeFence => Some Colors.PURPLE
  | Prompt => Some Colors.GREEN
  | Bullet => Some Colors.CYAN
  | Numbered => Some Colors.CYAN
  | Plain => None
  end.

(** The escaping of one character for HTML. *)
Definition escape_char (c : ascii) : string :=
  if Ascii.eqb c "&"%char then "&amp;"
  else if Ascii.eqb c "<"%char then "&lt;"
  else if Ascii.eqb c ">"%char then "&gt;"
  else String c EmptyString.

(** Every character escaped once, from left to right. *)
Fixpoint escape (s : string) : string :=
  match s with
  | EmptyString => EmptyString
  | String c s' => escape_char c ++ escape s'
  end.

(** [s[:-1]] *)
Fixpoint drop_last (s : string) : string :=
  match s with
  | EmptyString => EmptyString
  | String _ EmptyString => EmptyString
  | String a s' => String a (drop_last s')
  end.

(** A value without one layer of surrounding quotes: when it begins and
    ends with the same quote character, both go. *)
Definition strip_one_layer (v : string) : string :=
  match v with
  | String q (String _ _ as rest) =>
      if Str.is_quote q && Str.holds (Ascii.eqb q) (Str.last_char rest)
      then drop_last rest else v
  | _ => v
  end.

Definition is_Run (e : event) : bool :=
  match e with Run _ _ => true | _ => false end.

Definition is_Print (e : event) : bool :=
  match e with Print _ => true | _ => false end.


(** The pager command of a world: [PAGER], [less] by default, and the
    options [less] is given. *)
Definition pager_argv (w : world) : list string :=
  let pager := match environ w "PAGER" with Some v => v | None => "less" end in
  if String.eqb pager "less" then [pager; "-R"; "-F"; "-X"] else [pager].

(** A path whose last part holds a newline, as POSIX file names may. *)
Definition newline_name_path : Path :=
  ["docs"; "README" ++ Str.nl ++ "old.md"].

(** The body of the HTML document when nothing but the escaping were
    done to the content. *)
Definition escaped_block (content : string) : string :=
  "<pre>" ++ escape content ++ "</pre>".

(** The body [format_html] builds without the markdown library: the
    escaped content, a line break element before each of its newlines. *)
Definition preformatted_block (content : string) : string :=
  "<pre>" ++ Str.replace Str.nl_char ("<br>" ++ Str.nl) (escape content) ++ "</pre>".

(** The names of a directory that the patterns pick, pattern after
    pattern, and the patterns that pick a name. *)
Definition matching_names (w : world) (directory : Path) : list string :=
  flat_map (fun pat => filter (fnmatch pat) (scandir w directory)) doc_patterns.

Definition matching_patterns (n : string) : list string :=
  filter (fun pat => fnmatch pat n) doc_patterns.

(** The entry [n] of a directory, as a path. *)
Definition entry (directory : Path) (n : string) : Path := (directory ++ [n])%list.


(** The state of [get_aliases] before the first line. *)
Definition alias_start : alias_state :=
  {| current_section := None; output := aliases_title |}.

(** An alias whose value holds quotes within quotes. *)
Definition nested_quotes_value : string :=
  String Str.dquote ("echo 'hi'" ++ String Str.dquote EmptyString).

Definition nested_quotes_line : string := "alias e=" ++ nested_quotes_value.

(** ** The parts of a run *)

(** The value of a computation that is done. *)
Definition value {A} (default : A) (r : list event * outcome A) : A :=
  match snd r with
  | Done a => a
  | Raise _ => default
  end.

Definition resolved_dir (a : args) (w : world) : Path :=
  value [] (resolve_dir a w).

Definition aliases_text (w : world) : string :=
  value EmptyString (get_aliases w).

Definition file_content (w : world) (p : Path) : string :=
  value EmptyString (read_file p w).

(** What the globs of [find_doc_files] give for a directory, before the
    sort. *)
Definition discovered (w : world) (directory : Path) : list Path :=
  flat_map (glob_paths w directory) doc_patterns.

(** The files a run shows, when it gets to show any. *)
Definition shown_files (a : args) (w : world) : list Path :=
  match truthy (args_file a) with
  | Some f => [joinpath (resolved_dir a w) f]
  | None => sorted key_lt sort_key (discovered w (resolved_dir a w))
  end.

Definition final_output (a : args) (w : world) : string :=
  Str.join (Str.nl ++ Str.nl)
    (map (fun p => render (markdown w) (args_format a) (file_content w p) p)
       (shown_files a w)).

(** The trace up to the test of the directory, and the reads of the
    files shown. *)
Definition start_trace (a : args) (w : world) : list event :=
  fst (resolve_dir a w) ++ [Exists (resolved_dir a w)].

Definition reads (a : args) (w : world) : list event :=
  flat_map (fun p => fst (read_file p w)) (shown_files a w).

(** What the pager step leaves in the trace: the request for [PAGER], the
    child, and the print that stands in when the child is not found or
    fails. *)
Definition pager_trace (w : world) (content : string) : list event :=
  [EnvGet "PAGER"; Run (pager_argv w) content]
  ++ match subprocess_run w (pager_argv w) content with
     | Completed | Refused _ => []
     | NotFound _ | Failed _ => [Print content]
     end.

(** How the pager step ends: normally, but for a pager that cannot be
    started, whose error nothing catches. *)
Definition pager_outcome (w : world) (content : string) : outcome unit :=
  match subprocess_run w (pager_argv w) content with
  | Refused m => Raise (OSError m)
  | Completed | NotFound _ | Failed _ => Done tt
  end.


(** Whether the display goes through the pager, and what is displayed. *)
Definition uses_pager (a : args) : bool :=
  is_terminal (args_format a) && negb (args_no_pager a).

Definition displayed (a : args) (w : world) : string :=
  if args_aliases a then aliases_text w else final_output a w.

(** The condition under which C7 lets a run end with status 1. *)
Definition claimed_failure (a : args) (w : world) : Prop :=
  path_exists w (resolved_dir a w) = false
  \/ (exists f, truthy (args_file a) = Some f
                /\ path_exists w (joinpath (resolved_dir a w) f) = false)
  \/ discovered w (resolved_dir a w) = [].

(** The condition under which the program calls [sys.exit(1)]. *)
Definition failure (a : args) (w : world) : Prop :=
  path_exists w (resolved_dir a w) = false
  \/ (args_aliases a = false
      /\ exists f, truthy (args_file a) = Some f
                   /\ path_exists w (joinpath (resolved_dir a w) f) = false)
  \/ (args_aliases a = false
      /\ truthy (args_file a) = None
      /\ discovered w (resolved_dir a w) = []).

(** ** Sample surroundings *)

Fixpoint path_eqb (p q : Path) : bool :=
  match p, q with
  | [], [] => true
  | a :: p', b :: q' => String.eqb a b && path_eqb p' q'
  | _, _ => false
  end.

Definition dotfiles : Path := ["/"; "home"; "u"; ".dotfiles"].
Definition work : Path := ["/"; "work"].

(** A home with a [.dotfiles] directory of three documents and an aliases
    file, a working directory with another aliases file, no [DOTFILES_DIR],
    no [PAGER], a pager that runs, no markdown library. *)
Definition sample_world : world := {|
  environ := fun _ => None;
  home := ["/"; "home"; "u"];
  cwd := work;
  path_exists := fun p =>
    path_eqb p dotfiles || path_eqb p work
    || path_eqb p (entry dotfiles ".bash_aliases")
    || path_eqb p (entry work ".bash_aliases")
    || path_eqb p (entry dotfiles "README.md")
    || path_eqb p (entry dotfiles "INSTALL.txt")
    || path_eqb p (entry dotfiles "CHEATSHEET.md")
    || path_eqb p (entry work "main.c");
  scandir := fun p =>
    if path_eqb p dotfiles
    then ["CHEATSHEET.md"; "README.md"; "INSTALL.txt"; ".bash_aliases"]
    else if path_eqb p work then [".bash_aliases"; "main.c"]
    else [];
  open_read := fun p _ =>
    if path_eqb p (entry dotfiles ".bash_aliases") then Text "alias ll='ls -la'"
    else if path_eqb p (entry work ".bash_aliases") then Text "alias b='make'"
    else if path_eqb p (entry dotfiles "README.md") then Text "# Dotfiles"
    else if path_eqb p (entry dotfiles "INSTALL.txt") then Text "$ ./install.sh"
    else if path_eqb p (entry dotfiles "CHEATSHEET.md") then Text "- ll: list"
    else if path_eqb p (entry work "main.c") then Text "int main(void) { return 0; }"
    else Unreadable "[Errno 2] No such file or directory";
  subprocess_run := fun _ _ => Completed;
  markdown := None
|}.



Definition aliases_with_dir : args := {|
  args_file := None;
  args_aliases := true;
  args_format := text;
  args_dir := Some "/work";
  args_no_pager := true
|}.

(** The sample surroundings with an empty [PAGER], a name the system
    refuses to run, and a command line that shows one file through the
    pager. *)
Definition empty_pager_world : world := {|
  environ := fun v => if String.eqb v "PAGER" then Some EmptyString else None;
  home := home sample_world;
  cwd := cwd sample_world;
  path_exists := path_exists sample_world;
  scandir := scandir sample_world;
  open_read := open_read sample_world;
  subprocess_run := fun _ _ => Refused "[Errno 13] Permission denied: ''";
  markdown := None
|}.

Definition readme_through_pager : args := {|
  args_file := Some "README.md";
  args_aliases := false;
  args_format := terminal;
  args_dir := None;
  args_no_pager := false
|}.

(** ** The resolver, the locator and the traces, in other words *)

(** The places [find_dotfiles_dir] looks at, in order, when the
    environment gives no usable directory. *)
Definition candidates (w : world) : list Path :=
  [joinpath (home w) ".dotfiles-public"; joinpath (home w) ".dotfiles"; cwd w].

(** A candidate is taken when it exists and the name of one of its
    entries begins with README. *)
Definition qualifies (w : world) (c : Path) : bool :=
  path_exists w c && existsb (String.prefix "README") (scandir w c).

Definition searched (w : world) : Path :=
  match find (qualifies w) (candidates w) with
  | Some c => c
  | None => cwd w
  end.

(** The directory the resolver settles on. *)
Definition resolution (w : world) : Path :=
  match truthy (environ w "DOTFILES_DIR") with
  | Some d => if path_exists w (of_string d) then of_string d else searched w
  | None => searched w
  end.

(** The literal beginnings of the eight patterns. *)
Definition doc_prefixes : list string :=
  ["README"; "INSTALL"; "CONFIG"; "CHEATSHEET";
   "USAGE"; "QUICKSTART"; "SETUP"; "GETTING_STARTED"].

(** The order of the names of the entries of one directory. *)
Definition names_by_priority (n m : string) : Prop :=
  key_le (sort_key [n]) (sort_key [m]).

(** The first character after the leading whitespace that a line of a
    class has. *)
Definition mark (c : line_class) (a : ascii) : bool :=
  match c with
  | Heading1 | Heading2 | Heading3 => Ascii.eqb a "#"%char
  | CodeFence => Ascii.eqb a "`"%char
  | Prompt => Ascii.eqb a "$"%char || Ascii.eqb a "s"%char
  | Bullet => Ascii.eqb a "-"%char || Ascii.eqb a "*"%char || Ascii.eqb a "+"%char
  | Numbered => Str.isdigit a
  | Plain => true
  end.

Definition is_Open (e : event) : bool :=
  match e with Open _ _ => true | _ => false end.

Definition is_Open_utf8 (e : event) : bool :=
  match e with Open _ Utf8 => true | _ => false end.

(** A trace in which no file is opened, no process started and nothing
    printed. *)
Definition idle (t : list event) : bool :=
  forallb (fun e => negb (is_Open e || is_Run e || is_Print e)) t.

(** The text of the header of [format_terminal]. *)
Definition header_text (file_path : Path) : string :=
  Str.join Str.nl (terminal_header file_path).

(* ================================================================== *)
(** * Facts about strings *)

Section StringFacts.

Lemma append_assoc (a b c : string) : (a ++ b) ++ c = a ++ (b ++ c).
Proof. induction a as [|x a IH]; simpl; [reflexivity | now rewrite IH]. Qed.

Lemma has_char_app (c : ascii) (a b : string) :
  has_char c (a ++ b) = has_char c a || has_char c b.
Proof.
  induction a as [|x a IH]; simpl; [reflexivity|].
  rewrite IH. now rewrite orb_assoc.
Qed.

Lemma prefix_elim (p s : string) :
  String.prefix p s = true -> exists r, s = p ++ r.
Proof.
  revert s. induction p as [|a p IH]; intros s H.
  - exists s. reflexivity.
  - destruct s as [|b s]; simpl in H; [discriminate|].
    destruct (ascii_dec a b) as [->|]; [|discriminate].
    destruct (IH _ H) as [r ->]. exists r. reflexivity.
Qed.

Lemma split_not_nil (c : ascii) (s : string) : Str.split c s <> [].
Proof.
  induction s as [|a s IH]; simpl; [discriminate|].
  destruct (Ascii.eqb a c); [discriminate|].
  destruct (Str.split c s); discriminate.
Qed.

Lemma split_no_sep (c : ascii) (s : string) :
  has_char c s = false -> Str.split c s = [s].
Proof.
  induction s as [|a s IH]; simpl; intros H; [reflexivity|].
  apply orb_false_iff in H as [Ha Hs].
  rewrite Ha, (IH Hs). reflexivity.
Qed.

Lemma split_app_sep (c : ascii) (a b : string) :
  has_char c a = false ->
  Str.split c (a ++ String c b) = a :: Str.split c b.
Proof.
  induction a as [|x a IH]; simpl; intros H.
  - now rewrite Ascii.eqb_refl.
  - apply orb_false_iff in H as [Hx Ha].
    rewrite Hx, (IH Ha). reflexivity.
Qed.

Lemma split_clean (c : ascii) (s : string) :
  Forall (fun l => has_char c l = false) (Str.split c s).
Proof.
  induction s as [|a s IH]; simpl.
  - constructor; [reflexivity | constructor].
  - destruct (Ascii.eqb a c) eqn:E.
    + constructor; [reflexivity | assumption].
    + destruct (Str.split c s) as [|h t]; inversion IH; subst;
        constructor; simpl; try rewrite E; auto.
Qed.

Lemma split_join (c : ascii) (ls : list string) :
  ls <> [] ->
  Forall (fun l => has_char c l = false) ls ->
  Str.split c (Str.join (String c EmptyString) ls) = ls.
Proof.
  induction ls as [|x ls IH]; intros Hne Hall; [congruence|].
  inversion Hall as [|? ? Hx Hls]; subst.
  destruct ls as [|y ls].
  - simpl. now apply split_no_sep.
  - change (Str.join (String c EmptyString) (x :: y :: ls))
      with (x ++ String c (Str.join (String c EmptyString) (y :: ls))).
    rewrite (split_app_sep _ _ _ Hx), IH; [reflexivity | discriminate | assumption].
Qed.

(** Replacing a character that does not occur changes nothing. *)
Lemma replace_absent (c : ascii) (new s : string) :
  has_char c s = false -> Str.replace c new s = s.
Proof.
  induction s as [|a s IH]; simpl; intros H; [reflexivity|].
  apply orb_false_iff in H as [Ha Hs].
  rewrite Ha, (IH Hs). reflexivity.
Qed.

Lemma replace_app (c : ascii) (new a b : string) :
  Str.replace c new (a ++ b) = Str.replace c new a ++ Str.replace c new b.
Proof.
  induction a as [|x a IH]; simpl; [reflexivity|].
  destruct (Ascii.eqb x c); rewrite IH; [now rewrite append_assoc | reflexivity].
Qed.

End StringFacts.

(* ================================================================== *)
(** * The terminal formatter *)

Section Terminal.

(** The chain of tests of [format_terminal] is the classification
    followed by the style of the class. *)
Lemma format_terminal_line_classify (line : string) :
  format_terminal_line line =
  match style (classify line) with
  | Some codes => codes ++ line ++ Colors.RESET
  | None => line
  end.
Proof.
  unfold format_terminal_line, classify, all_classes. cbn [find].
  change (Str.startswith line "# ") with (fits Heading1 line).
  change (Str.startswith line "## ") with (fits Heading2 line).
  change (Str.startswith line "### ") with (fits Heading3 line).
  change (Str.startswith line "```") with (fits CodeFence line).
  change (Str.startswith (Str.strip line) "$"
          || Str.startswith (Str.strip line) "sudo") with (fits Prompt line).
  change (Str.startswith (Str.strip line) "- "
          || Str.startswith (Str.strip line) "* "
          || Str.startswith (Str.strip line) "+ ") with (fits Bullet line).
  change (negb (Str.is_empty (Str.strip line))
          && Str.holds Str.isdigit (Str.first_char line)
          && Str.contains ". " line) with (fits Numbered line).
  destruct (fits Heading1 line); [cbn [style]; now rewrite append_assoc|].
  destruct (fits Heading2 line); [cbn [style]; now rewrite append_assoc|].
  destruct (fits Heading3 line); [reflexivity|].
  destruct (fits CodeFence line); [reflexivity|].
  destruct (fits Prompt line); [reflexivity|].
  destruct (fits Bullet line); [reflexivity|].
  destruct (fits Numbered line); reflexivity.
Qed.

Lemma style_no_newline (c : line_class) (codes : string) :
  style c = Some codes -> has_char Str.nl_char codes = false.
Proof. destruct c; intros [= <-]; reflexivity. Qed.

Lemma style_plain (c : line_class) : style c = None <-> c = Plain.
Proof. destruct c; cbn [style]; split; intros H; congruence. Qed.

Lemma format_terminal_line_clean (line : string) :
  has_char Str.nl_char line = false ->
  has_char Str.nl_char (format_terminal_line line) = false.
Proof.
  intros H. rewrite format_terminal_line_classify.
  destruct (style (classify line)) as [codes|] eqn:E; [|assumption].
  rewrite !has_char_app, (style_no_newline _ _ E), H. reflexivity.
Qed.

(** The class of a line is the first, in the order of the tests, whose
    rule the line fits. *)
Ltac use_lower Hlow k :=
  let H := fresh in
  let P := fresh in
  assert (H := Hlow k); cbn [rank] in H;
  match type of H with ?a -> _ => assert (P : a) by lia end;
  specialize (H P); congruence.

Lemma classify_first_fit (line : string) (c : line_class) :
  classify line = c <->
  fits c line = true /\
  forall c', rank c' < rank c -> fits c' line = false.
Proof.
  unfold classify, all_classes. cbn [find].
  change (fits Plain line) with true.
  destruct (fits Heading1 line) eqn:F1;
  [|destruct (fits Heading2 line) eqn:F2;
  [|destruct (fits Heading3 line) eqn:F3;
  [|destruct (fits CodeFence line) eqn:F4;
  [|destruct (fits Prompt line) eqn:F5;
  [|destruct (fits Bullet line) eqn:F6;
  [|destruct (fits Numbered line) eqn:F7]]]]]];
  (split;
   [ intros <-; split;
     [ first [assumption | reflexivity]
     | intros c' Hr; destruct c'; cbn [rank] in Hr; first [lia | assumption] ]
   | intros [Hf Hlow]; destruct c; try reflexivity; try congruence; exfalso;
     first
       [ use_lower Hlow Heading1 | use_lower Hlow Heading2
       | use_lower Hlow Heading3 | use_lower Hlow CodeFence
       | use_lower Hlow Prompt | use_lower Hlow Bullet
       | use_lower Hlow Numbered ] ]).
Qed.

End Terminal.

Section TerminalClaims.

(** C6.  Every line gets exactly one class: the first, in the order
    headings of level 1 to 3, code fence, prompt, bullet, numbered,
    plain, whose rule it fits.  [format_terminal] puts out every line
    of the content through this classification: a line of a class
    other than plain is wrapped in the codes of its class and the
    reset code, a plain line is put out unchanged. *)
Theorem format_terminal_classification :
  (forall line : string,
      (forall c, classify line = c <->
                 fits c line = true /\
                 forall c', rank c' < rank c -> fits c' line = false)
      /\ (exists! c, fits c line = true /\
                     forall c', rank c' < rank c -> fits c' line = false)
      /\ (classify line = Plain -> format_terminal_line line = line)
      /\ (classify line <> Plain ->
          exists codes, style (classify line) = Some codes /\
                        format_terminal_line line = codes ++ line ++ Colors.RESET))
  /\ (forall content file_path,
         format_terminal content file_path =
         Str.join Str.nl
           (terminal_header file_path ++
            map format_terminal_line (Str.split Str.nl_char content))%list)
  /\ (rank Heading1 < rank Heading2 < rank Heading3
      /\ rank Heading3 < rank CodeFence < rank Prompt
      /\ rank Prompt < rank Bullet < rank Numbered
      /\ rank Numbered < rank Plain).
Proof.
  split; [|split; [reflexivity | cbn; lia]].
  intros line. split; [apply classify_first_fit|]. split; [|split].
  - exists (classify line). split.
    + now apply classify_first_fit.
    + intros c Hc. now apply classify_first_fit.
  - intros H. rewrite format_terminal_line_classify, H. reflexivity.
  - intros H. rewrite format_terminal_line_classify.
    destruct (style (classify line)) as [codes|] eqn:E.
    + exists codes. split; reflexivity.
    + apply style_plain in E. contradiction.
Qed.

Lemma format_terminal_classification_witness :
  exists codes,
    style (classify "  $ make install") = Some codes /\
    format_terminal_line "  $ make install"
    = codes ++ "  $ make install" ++ Colors.RESET.
Proof.
  destruct format_terminal_classification as [H _].
  destruct (H "  $ make install") as (_ & _ & _ & Hw).
  apply Hw. vm_compute. discriminate.
Defined.

(** C10, as the code has it.  When the name of the file holds no
    newline, the output of [format_terminal], split at the newlines, is
    the four lines of the header (a border, the name, the border again,
    an empty line) and then one line for each line of the content:
    that line unchanged, or that line between the codes of a class and
    the reset code. *)
Theorem format_terminal_line_structure (content : string) (file_path : Path) :
  has_char Str.nl_char (name file_path) = false ->
  exists border outs,
    Str.split Str.nl_char (format_terminal content file_path)
    = border
      :: (Colors.BOLD ++ Colors.GREEN ++ name file_path ++ Colors.RESET)
      :: border
      :: EmptyString
      :: outs
    /\ has_char Str.nl_char border = false
    /\ Forall2 (fun line out =>
                  out = line \/
                  exists c codes, style c = Some codes /\
                                  out = codes ++ line ++ Colors.RESET)
         (Str.split Str.nl_char content) outs.
Proof.
  intros Hname.
  exists (Colors.BOLD ++ Colors.BLUE ++ Str.repeat "="%char 60 ++ Colors.RESET),
         (map format_terminal_line (Str.split Str.nl_char content)).
  split; [|split; [reflexivity|]].
  - unfold format_terminal. apply split_join; [discriminate|].
    constructor; [reflexivity|].
    constructor; [rewrite !has_char_app, Hname; reflexivity|].
    constructor; [reflexivity|].
    constructor; [reflexivity|].
    apply Forall_map.
    eapply Forall_impl; [|apply split_clean].
    intros l Hl. now apply format_terminal_line_clean.
  - induction (Str.split Str.nl_char content) as [|l ls IH]; simpl; constructor;
      [|assumption].
    rewrite format_terminal_line_classify.
    destruct (style (classify l)) as [codes|] eqn:E; [right | left; reflexivity].
    exists (classify l), codes. split; [assumption | reflexivity].
Qed.

Lemma format_terminal_line_structure_witness :
  exists border outs,
    Str.split Str.nl_char (format_terminal ("# Title" ++ Str.nl ++ "text") ["docs"; "README.md"])
    = border
      :: (Colors.BOLD ++ Colors.GREEN ++ name ["docs"; "README.md"] ++ Colors.RESET)
      :: border
      :: EmptyString
      :: outs
    /\ has_char Str.nl_char border = false
    /\ Forall2 (fun line out =>
                  out = line \/
                  exists c codes, style c = Some codes /\
                                  out = codes ++ line ++ Colors.RESET)
         (Str.split Str.nl_char ("# Title" ++ Str.nl ++ "text")) outs.
Proof.
  apply (format_terminal_line_structure ("# Title" ++ Str.nl ++ "text") ["docs"; "README.md"]).
  reflexivity.
Defined.

(** C10 as stated fails for a file whose name holds a newline: the
    header alone then splits into five lines. *)
Lemma format_terminal_newline_in_name :
  List.length (Str.split Str.nl_char (format_terminal "text" newline_name_path))
  <> 4 + List.length (Str.split Str.nl_char "text").
Proof. vm_compute. discriminate. Qed.

End TerminalClaims.

(* ================================================================== *)
(** * The HTML formatter *)

Section Html.

(** The three replacements in a row escape every character once: an
    ampersand put in by a later replacement is never met by the first. *)
Lemma replace_chain_escape (content : string) :
  Str.replace ">"%char "&gt;"
    (Str.replace "<"%char "&lt;"
       (Str.replace "&"%char "&amp;" content))
  = escape content.
Proof.
  induction content as [|a s IH]; [reflexivity|].
  cbn [Str.replace escape]. unfold escape_char.
  destruct (Ascii.eqb a "&"%char) eqn:E1.
  - rewrite !replace_app, IH. reflexivity.
  - cbn [Str.replace]. destruct (Ascii.eqb a "<"%char) eqn:E2.
    + rewrite replace_app, IH. reflexivity.
    + cbn [Str.replace]. destruct (Ascii.eqb a ">"%char) eqn:E3.
      * now rewrite IH.
      * now rewrite IH.
Qed.

Lemma delegate_none (md : option (string -> string)) (file_path : Path) :
  delegate md file_path = None <-> md = None \/ is_markup_suffix file_path = false.
Proof.
  unfold delegate. destruct md as [render|]; [|tauto].
  destruct (is_markup_suffix file_path); split; intros H;
    try discriminate; try tauto.
  destruct H; discriminate.
Qed.

(** C4, as the code has it.  [format_html] always puts its body in the
    fixed document, titled with the name of the file.  The body is what
    the markdown library makes of the content when the library is there
    and the suffix is one of its two; otherwise (the library is missing
    or the suffix is another) it is the preformatted block of the
    content with each of the three characters escaped once and, in
    addition, a line break element put before every newline.  For a
    content of one line that block holds the escaped content alone. *)
Theorem format_html_escapes_once :
  forall (md : option (string -> string)) (content : string) (file_path : Path),
    (delegate md file_path = None <->
     md = None \/ is_markup_suffix file_path = false)
    /\ (forall render, delegate md file_path = Some render ->
          format_html md content file_path
          = html_template (name file_path) (render content))
    /\ (delegate md file_path = None ->
          format_html md content file_path
          = html_template (name file_path) (preformatted_block content))
    /\ (delegate md file_path = None ->
        has_char Str.nl_char content = false ->
          format_html md content file_path
          = html_template (name file_path) (escaped_block content)).
Proof.
  intros md content file_path.
  split; [apply delegate_none|].
  unfold format_html, preformatted_block, escaped_block.
  split; [|split].
  - intros render ->. reflexivity.
  - intros ->. now rewrite replace_chain_escape.
  - intros -> Hnl. rewrite replace_chain_escape.
    rewrite replace_absent; [reflexivity|].
    clear -Hnl. induction content as [|a s IH]; [reflexivity|].
    cbn [has_char] in Hnl. apply orb_false_iff in Hnl as [Ha Hs].
    cbn [escape]. rewrite has_char_app, (IH Hs), orb_false_r.
    unfold escape_char.
    destruct (Ascii.eqb a "&"%char); [reflexivity|].
    destruct (Ascii.eqb a "<"%char); [reflexivity|].
    destruct (Ascii.eqb a ">"%char); [reflexivity|].
    cbn [has_char]. now rewrite Ha.
Qed.

Lemma format_html_escapes_once_witness :
  format_html None "if a<b && b>c" ["notes"; "TODO.txt"]
  = html_template "TODO.txt" "<pre>if a&lt;b &amp;&amp; b&gt;c</pre>".
Proof.
  destruct (format_html_escapes_once None "if a<b && b>c" ["notes"; "TODO.txt"])
    as (_ & _ & _ & H).
  apply H; reflexivity.
Defined.

(** C4 as stated fails for a content of two lines: the block is not
    the escaped content alone, a line break element comes with the
    newline. *)
Lemma format_html_adds_line_breaks :
  format_html None ("a<b" ++ Str.nl ++ "c") ["notes"; "TODO.txt"]
  <> html_template (name ["notes"; "TODO.txt"])
       (escaped_block ("a<b" ++ Str.nl ++ "c"))
  /\ format_html None ("a<b" ++ Str.nl ++ "c") ["notes"; "TODO.txt"]
     = html_template "TODO.txt" ("<pre>a&lt;b<br>" ++ Str.nl ++ "c</pre>").
Proof. split; [vm_compute; discriminate | reflexivity]. Qed.

End Html.

(* ================================================================== *)
(** * Sorting *)

Section SortedFacts.
Context {A K : Type} (lt : K -> K -> bool) (key : A -> K).

Hypothesis lt_asym : forall a b, lt a b = true -> lt b a = false.

Lemma insert_perm (x : A) (l : list A) : Permutation (insert lt key x l) (x :: l).
Proof.
  induction l as [|y l IH]; simpl; [reflexivity|].
  destruct (lt (key y) (key x)); [|reflexivity].
  rewrite IH. apply perm_swap.
Qed.

Lemma sorted_perm (l : list A) : Permutation (sorted lt key l) l.
Proof.
  induction l as [|x l IH]; simpl; [reflexivity|].
  rewrite insert_perm. now constructor.
Qed.

Lemma insert_hd (x y : A) (l : list A) :
  not_after lt key y x -> HdRel (not_after lt key) y l -> HdRel (not_after lt key) y (insert lt key x l).
Proof.
  intros Hyx Hl. destruct l as [|z l]; simpl; [now constructor|].
  destruct (lt (key z) (key x)); constructor; [|assumption].
  now inversion Hl.
Qed.

Lemma insert_sorted (x : A) (l : list A) :
  Sorted (not_after lt key) l -> Sorted (not_after lt key) (insert lt key x l).
Proof.
  induction l as [|y l IH]; intros Hs; simpl.
  - repeat constructor.
  - inversion Hs as [|? ? Hl Hhd]; subst.
    destruct (lt (key y) (key x)) eqn:E.
    + constructor; [now apply IH|].
      apply insert_hd; [|assumption]. now apply lt_asym.
    + constructor; [assumption|]. now constructor.
Qed.

Lemma sorted_Sorted (l : list A) : Sorted (not_after lt key) (sorted lt key l).
Proof.
  induction l as [|x l IH]; simpl; [constructor | now apply insert_sorted].
Qed.

End SortedFacts.

Section SortedMap.
Context {A B K : Type} (lt : K -> K -> bool).

Lemma insert_map (f : A -> B) (key : B -> K) (x : A) (l : list A) :
  insert lt key (f x) (map f l) = map f (insert lt (fun a => key (f a)) x l).
Proof.
  induction l as [|y l IH]; simpl; [reflexivity|].
  destruct (lt (key (f y)) (key (f x))); simpl; [now rewrite IH | reflexivity].
Qed.

Lemma sorted_map (f : A -> B) (key : B -> K) (l : list A) :
  sorted lt key (map f l) = map f (sorted lt (fun a => key (f a)) l).
Proof.
  induction l as [|x l IH]; simpl; [reflexivity|].
  now rewrite IH, insert_map.
Qed.

Lemma insert_ext (k1 k2 : A -> K) (x : A) (l : list A) :
  (forall a, k1 a = k2 a) -> insert lt k1 x l = insert lt k2 x l.
Proof.
  intros H. induction l as [|y l IH]; simpl; [reflexivity|].
  now rewrite !H, IH.
Qed.

Lemma sorted_ext (k1 k2 : A -> K) (l : list A) :
  (forall a, k1 a = k2 a) -> sorted lt k1 l = sorted lt k2 l.
Proof.
  intros H. induction l as [|x l IH]; simpl; [reflexivity|].
  rewrite IH. now apply insert_ext.
Qed.
End SortedMap.

(** ** The order of the keys *)

Section KeyOrder.

Lemma ascii_compare_trans (a b c : ascii) (r : comparison) :
  Ascii.compare a b = r -> Ascii.compare b c = r -> Ascii.compare a c = r.
Proof.
  unfold Ascii.compare. intros H1 H2.
  destruct r.
  - apply N.compare_eq_iff in H1, H2. apply N.compare_eq_iff. congruence.
  - apply N.compare_lt_iff in H1, H2. apply N.compare_lt_iff.
    eapply N.lt_trans; eassumption.
  - apply N.compare_gt_iff in H1, H2. apply N.compare_gt_iff.
    eapply N.lt_trans; eassumption.
Qed.

Lemma string_leb_trans (a b c : string) :
  String.leb a b = true -> String.leb b c = true -> String.leb a c = true.
Proof.
  unfold String.leb. revert b c.
  induction a as [|x a IH]; intros [|y b] [|z c]; simpl; try congruence.
  destruct (Ascii.compare x y) eqn:Exy; try discriminate;
    destruct (Ascii.compare y z) eqn:Eyz; try discriminate; intros H1 H2.
  - rewrite (ascii_compare_trans _ _ _ _ Exy Eyz). now apply IH with b.
  - apply Ascii.compare_eq_iff in Exy. subst. now rewrite Eyz.
  - apply Ascii.compare_eq_iff in Eyz. subst. now rewrite Exy.
  - now rewrite (ascii_compare_trans _ _ _ _ Exy Eyz).
Qed.

Lemma string_ltb_leb (a b : string) :
  String.ltb b a = false <-> String.leb a b = true.
Proof.
  unfold String.ltb, String.leb. rewrite (String.compare_antisym a b).
  destruct (String.compare b a); simpl; split; congruence.
Qed.

Lemma string_ltb_asym (a b : string) :
  String.ltb a b = true -> String.ltb b a = false.
Proof.
  unfold String.ltb. rewrite (String.compare_antisym a b).
  destruct (String.compare b a); simpl; congruence.
Qed.

Lemma key_lt_asym (a b : nat * string) : key_lt a b = true -> key_lt b a = false.
Proof.
  destruct a as [i s], b as [j t]. unfold key_lt. simpl.
  intros H. apply orb_true_iff in H as [H | H].
  - apply Nat.ltb_lt in H.
    replace (j <? i)%nat with false by (symmetry; apply Nat.ltb_ge; lia).
    replace (j =? i)%nat with false by (symmetry; apply Nat.eqb_neq; lia).
    reflexivity.
  - apply andb_true_iff in H as [H1 H2]. apply Nat.eqb_eq in H1. subst.
    rewrite Nat.ltb_irrefl, Nat.eqb_refl. simpl. now apply string_ltb_asym.
Qed.

(** [b < a] fails exactly when [a] is at most [b]. *)
Lemma key_lt_le (a b : nat * string) : key_lt b a = false <-> key_le a b.
Proof.
  destruct a as [i s], b as [j t]. unfold key_lt, key_le. simpl.
  rewrite orb_false_iff, andb_false_iff, Nat.ltb_ge, Nat.eqb_neq, string_ltb_leb.
  split.
  - intros [H1 [H2|H2]]; [left; lia|].
    destruct (Nat.eq_dec i j); [right; auto | left; lia].
  - intros [H | [H1 H2]]; [split; [lia | left; lia] | split; [lia | now right]].
Qed.

Lemma key_le_trans (a b c : nat * string) : key_le a b -> key_le b c -> key_le a c.
Proof.
  unfold key_le. intros [H1 | [H1 H1']] [H2 | [H2 H2']].
  - left; lia.
  - left; lia.
  - left; lia.
  - right. split; [congruence|]. now apply string_leb_trans with (snd b).
Qed.

End KeyOrder.

(* ================================================================== *)
(** * The file locator *)

Section Locator.

Lemma fnmatch_star (s : string) : fnmatch "*" s = true.
Proof.
  induction s as [|a s IH]; [reflexivity|].
  change (fnmatch "*" (String a s)) with (false || fnmatch "*" s).
  exact IH.
Qed.

(** A pattern of literal characters and a final star picks the names
    that begin with the literal characters. *)
Lemma fnmatch_literal_star (lit s : string) :
  has_char "*"%char lit = false ->
  fnmatch (lit ++ "*") s = String.prefix lit s.
Proof.
  revert s. induction lit as [|a lit IH]; intros s H.
  - cbn [append]. rewrite fnmatch_star. now destruct s.
  - cbn [has_char] in H. apply orb_false_iff in H as [Ha Hl].
    cbn [append fnmatch]. rewrite Ha.
    destruct s as [|d s]; [reflexivity|].
    cbn [String.prefix]. rewrite (IH _ Hl).
    destruct (ascii_dec a d) as [->|Hne].
    + now rewrite Ascii.eqb_refl.
    + apply Ascii.eqb_neq in Hne. now rewrite Hne.
Qed.

Lemma doc_pattern_shape (pat : string) :
  In pat doc_patterns ->
  pat = drop_last pat ++ "*" /\ has_char "*"%char (drop_last pat) = false.
Proof.
  intros H. repeat (destruct H as [<-|H]; [split; reflexivity|]). destruct H.
Qed.

Lemma doc_pattern_prefix (pat n : string) :
  In pat doc_patterns -> fnmatch pat n = true -> exists r, n = drop_last pat ++ r.
Proof.
  intros Hin H. destruct (doc_pattern_shape _ Hin) as [Hp Hs].
  rewrite Hp, (fnmatch_literal_star _ _ Hs) in H. now apply prefix_elim.
Qed.

(** No name is picked by two of the eight patterns. *)
Lemma doc_patterns_exclusive (n p q : string) :
  In p doc_patterns -> In q doc_patterns ->
  fnmatch p n = true -> fnmatch q n = true -> p = q.
Proof.
  intros Hp Hq Mp Mq.
  destruct (doc_pattern_prefix _ _ Hp Mp) as [r1 E1].
  destruct (doc_pattern_prefix _ _ Hq Mq) as [r2 E2].
  rewrite E1 in E2. clear -Hp Hq E2.
  repeat (destruct Hp as [<-|Hp];
          [repeat (destruct Hq as [<-|Hq]; [first [reflexivity | discriminate E2]|]);
           destruct Hq|]).
  destruct Hp.
Qed.

Lemma doc_patterns_NoDup : NoDup doc_patterns.
Proof.
  unfold doc_patterns.
  repeat (constructor; [simpl; intuition discriminate|]). constructor.
Qed.

Lemma filter_exclusive {A} (f : A -> bool) (l : list A) :
  NoDup l ->
  (forall x y, In x l -> In y l -> f x = true -> f y = true -> x = y) ->
  List.length (filter f l) <= 1.
Proof.
  induction l as [|a l IH]; intros Hnd Hex; simpl; [lia|].
  inversion Hnd as [|? ? Hnotin Hnd']; subst.
  destruct (f a) eqn:Fa.
  - assert (E : filter f l = []).
    { destruct (filter f l) as [|y t] eqn:Efl; [reflexivity|]. exfalso.
      assert (Hy : In y (filter f l)) by (rewrite Efl; now left).
      apply filter_In in Hy as [Hy Fy].
      assert (a = y) by (apply Hex; simpl; auto). subst. contradiction. }
    rewrite E. simpl. lia.
  - apply IH; [assumption|]. intros x y Hx Hy. apply Hex; now right.
Qed.

Lemma matching_patterns_at_most_one (n : string) :
  List.length (matching_patterns n) <= 1.
Proof.
  apply filter_exclusive; [apply doc_patterns_NoDup|].
  intros p q Hp Hq. now apply doc_patterns_exclusive.
Qed.

Lemma picked_NoDup (entries pats : list string) :
  NoDup entries -> NoDup pats ->
  (forall n p q, In p pats -> In q pats ->
                 fnmatch p n = true -> fnmatch q n = true -> p = q) ->
  NoDup (flat_map (fun pat => filter (fnmatch pat) entries) pats).
Proof.
  intros He. induction pats as [|p pats IH]; intros Hp Hex; simpl; [constructor|].
  inversion Hp as [|? ? Hnotin Hp']; subst.
  apply NoDup_app.
  - now apply NoDup_filter.
  - apply IH; [assumption|]. intros n x y Hx Hy. apply Hex; now right.
  - intros n Hn Hn'. apply filter_In in Hn as [_ Mp].
    apply in_flat_map in Hn' as [q [Hq Hn']]. apply filter_In in Hn' as [_ Mq].
    assert (p = q) by (apply (Hex n); simpl; auto). subst. contradiction.
Qed.

(** The loop of [find_doc_files] asks for each pattern once and keeps
    all that it is given. *)
Lemma collect_run (w : world) (directory : Path) (pats : list string) (files : list Path) :
  collect directory pats files w
  = (map (Glob directory) pats,
     Done (files ++ flat_map (glob_paths w directory) pats)%list).
Proof.
  revert files. induction pats as [|p pats IH]; intros files.
  - simpl. unfold ret. now rewrite app_nil_r.
  - cbn [collect]. unfold bind at 1. cbn [glob].
    rewrite IH. cbn [map flat_map]. now rewrite <- app_assoc.
Qed.

Lemma find_doc_files_run (w : world) (directory : Path) :
  find_doc_files directory w
  = (map (Glob directory) doc_patterns,
     Done (sorted key_lt sort_key (flat_map (glob_paths w directory) doc_patterns))).
Proof.
  unfold find_doc_files, bind. rewrite collect_run. cbn [ret app].
  now rewrite app_nil_r.
Qed.

Lemma glob_paths_names (w : world) (directory : Path) :
  flat_map (glob_paths w directory) doc_patterns
  = map (entry directory) (matching_names w directory).
Proof.
  unfold matching_names, glob_paths.
  induction doc_patterns as [|p pats IH]; simpl; [reflexivity|].
  now rewrite map_app, IH.
Qed.

(** The key of an entry is that of its name. *)
Lemma name_entry (directory : Path) (n : string) : name (entry directory n) = name [n].
Proof. unfold name, entry. now rewrite last_last. Qed.

Lemma sort_key_entry (directory : Path) (n : string) :
  sort_key (entry directory n) = sort_key [n].
Proof. unfold sort_key, stem. now rewrite !name_entry. Qed.

Lemma find_doc_files_names (w : world) (directory : Path) :
  snd (find_doc_files directory w)
  = Done (map (entry directory)
            (sorted key_lt (fun n => sort_key [n]) (matching_names w directory))).
Proof.
  rewrite find_doc_files_run. cbn [snd].
  rewrite glob_paths_names, sorted_map. f_equal. f_equal.
  apply sorted_ext. intros n. apply sort_key_entry.
Qed.

End Locator.

Section LocatorClaims.









End LocatorClaims.

Section Duplicates.

Lemma entry_NoDup (directory : Path) (names : list string) :
  NoDup names -> NoDup (map (entry directory) names).
Proof.
  induction 1 as [|n names Hn Hnd IH]; simpl; constructor; [|assumption].
  intros Hin. apply in_map_iff in Hin as [m [E Hm]].
  apply app_inj_tail in E as [_ ->]. contradiction.
Qed.

Lemma find_doc_files_NoDup (w : world) (directory : Path) (files : list Path) :
  NoDup (scandir w directory) ->
  snd (find_doc_files directory w) = Done files ->
  NoDup files.
Proof.
  intros Hnd H. rewrite find_doc_files_names in H. injection H as <-.
  apply entry_NoDup.
  eapply Permutation_NoDup; [symmetry; apply sorted_perm|].
  apply picked_NoDup; [assumption | apply doc_patterns_NoDup|].
  intros n p q. now apply doc_patterns_exclusive.
Qed.

(** C2, as the code has it.  [find_doc_files] has no step that removes
    duplicates: its result is a rearrangement of all that the eight
    globs give.  But no name matches more than one of the eight
    patterns, so a directory, whose entries have distinct names, never
    has a file twice in the result. *)
Theorem find_doc_files_no_duplicates (w : world) (directory : Path) :
  NoDup (scandir w directory) ->
  exists files,
    snd (find_doc_files directory w) = Done files
    /\ Permutation files (flat_map (glob_paths w directory) doc_patterns)
    /\ (forall n, List.length (matching_patterns n) <= 1)
    /\ NoDup files.
Proof.
  intros Hnd.
  exists (sorted key_lt sort_key (flat_map (glob_paths w directory) doc_patterns)).
  assert (E := find_doc_files_run w directory).
  split; [now rewrite E|]. split; [apply sorted_perm|].
  split; [apply matching_patterns_at_most_one|].
  apply (find_doc_files_NoDup w directory); [assumption | now rewrite E].
Qed.

Lemma find_doc_files_no_duplicates_witness :
  exists files,
    snd (find_doc_files dotfiles sample_world) = Done files
    /\ Permutation files (flat_map (glob_paths sample_world dotfiles) doc_patterns)
    /\ (forall n, List.length (matching_patterns n) <= 1)
    /\ NoDup files.
Proof.
  apply (find_doc_files_no_duplicates sample_world dotfiles).
  cbn. repeat (constructor; [simpl; intuition discriminate|]). constructor.
Defined.

(** C2 as stated fails: there is no name that two of the patterns
    match, and no directory with a file twice in the result. *)
Lemma no_file_matches_two_patterns :
  (~ exists n : string, 1 < List.length (matching_patterns n))
  /\ (~ exists (w : world) (directory : Path) (files : list Path),
          NoDup (scandir w directory)
          /\ snd (find_doc_files directory w) = Done files
          /\ ~ NoDup files).
Proof.
  split.
  - intros [n H]. assert (H' := matching_patterns_at_most_one n). lia.
  - intros (w & directory & files & Hnd & H & Hdup).
    apply Hdup. now apply (find_doc_files_NoDup w directory).
Qed.

End Duplicates.

(* ================================================================== *)
(** * The alias extractor *)

Section Aliases.

Lemma lstrip_by_spec (p : ascii -> bool) (s : string) :
  exists a, s = a ++ Str.lstrip_by p s
            /\ all_chars p a = true
            /\ Str.holds p (Str.first_char (Str.lstrip_by p s)) = false.
Proof.
  induction s as [|c s (a & E & Ha & Hf)].
  - exists EmptyString. auto.
  - cbn [Str.lstrip_by]. destruct (p c) eqn:Pc.
    + exists (String c a). cbn. rewrite <- E, Pc, Ha. auto.
    + exists EmptyString. cbn. auto.
Qed.

Lemma rstrip_by_spec (p : ascii -> bool) (s : string) :
  exists b, s = Str.rstrip_by p s ++ b
            /\ all_chars p b = true
            /\ Str.holds p (Str.last_char (Str.rstrip_by p s)) = false.
Proof.
  induction s as [|c s (b & E & Hb & Hl)].
  - exists EmptyString. auto.
  - cbn [Str.rstrip_by].
    destruct (p c) eqn:Pc; destruct (Str.rstrip_by p s) as [|d r] eqn:R; cbn.
    + exists (String c b). cbn in *. subst s. rewrite Pc, Hb. auto.
    + exists b. cbn in *. subst s. auto.
    + exists b. cbn in *. subst s. rewrite Pc. auto.
    + exists b. cbn in *. subst s. auto.
Qed.

Lemma rstrip_by_first (p : ascii -> bool) (s : string) :
  Str.holds p (Str.first_char s) = false ->
  Str.holds p (Str.first_char (Str.rstrip_by p s)) = false.
Proof.
  destruct s as [|c s]; [auto|]. cbn. intros Pc. now rewrite Pc.
Qed.

(** [strip] takes away a run of characters of the set at each end, and
    all of it: what is left neither begins nor ends with one. *)
Lemma strip_by_spec (p : ascii -> bool) (s : string) :
  exists a b, s = a ++ Str.strip_by p s ++ b
              /\ all_chars p a = true /\ all_chars p b = true
              /\ Str.holds p (Str.first_char (Str.strip_by p s)) = false
              /\ Str.holds p (Str.last_char (Str.strip_by p s)) = false.
Proof.
  unfold Str.strip_by.
  destruct (lstrip_by_spec p s) as (a & Ea & Ha & Hf).
  destruct (rstrip_by_spec p (Str.lstrip_by p s)) as (b & Eb & Hb & Hl).
  exists a, b. split; [rewrite <- Eb; exact Ea|].
  repeat split; auto using rstrip_by_first.
Qed.



(** A line that begins with a hash and a space does not begin with two
    hashes: the second test of the header branch never decides. *)
Lemma header_not_double_hash (l : string) :
  Str.startswith l "# " = true -> Str.startswith l "##" = false.
Proof.
  unfold Str.startswith. intros H. apply prefix_elim in H as [r ->]. reflexivity.
Qed.












End Aliases.

Section AliasClaims.




(** The quote characters are taken away with [strip] and a set of
    characters, which eats every quote at either end: a value in double
    quotes that ends with a quoted word loses the quote of the word
    too, where one layer less would keep it. *)
Lemma alias_value_loses_all_quotes :
  alias_step alias_start nested_quotes_line
  = {| current_section := None;
       output := (aliases_title
                  ++ [("  " ++ Colors.CYAN ++ "e              " ++ Colors.RESET
                        ++ " echo 'hi")%string])%list |}
  /\ strip_one_layer nested_quotes_value = "echo 'hi'"
  /\ Str.strip_quotes nested_quotes_value = "echo 'hi"
  /\ Str.strip_quotes nested_quotes_value <> strip_one_layer nested_quotes_value.
Proof.
  split; [reflexivity|]. split; [reflexivity|]. split; [reflexivity|].
  vm_compute. discriminate.
Qed.

End AliasClaims.

(* ================================================================== *)
(** * Runs *)

Section Runs.

Lemma bind_done {A B} (m : IO A) (k : A -> IO B) (w : world)
    (t t' : list event) (a : A) (r : outcome B) :
  m w = (t, Done a) -> k a w = (t', r) -> bind m k w = ((t ++ t')%list, r).
Proof. unfold bind. now intros -> ->. Qed.

(** A computation that is done gives its value. *)
Lemma done_value {A} (d : A) (r : list event * outcome A) :
  (exists t a, r = (t, Done a)) -> r = (fst r, Done (value d r)).
Proof. intros (t & a & ->). reflexivity. Qed.

(** The reader: what each answer to the two attempts leads to. *)
Lemma read_file_run (file_path : Path) (w : world) :
  read_file file_path w =
  match open_read w file_path Utf8 with
  | Text s => ([Open file_path Utf8], Done s)
  | Unreadable m => ([Open file_path Utf8], Done ("Error reading file: " ++ m))
  | Undecodable _ =>
      ([Open file_path Utf8; Open file_path Latin1],
       match open_read w file_path Latin1 with
       | Text s => Done s
       | Undecodable m | Unreadable m => Done ("Error reading file: " ++ m)
       end)
  end.
Proof.
  unfold read_file, try_except, open_and_read.
  destruct (open_read w file_path Utf8) as [s|m|m]; cbn; [reflexivity| |reflexivity].
  destruct (open_read w file_path Latin1) as [s|m'|m']; reflexivity.
Qed.

Lemma read_file_done (file_path : Path) (w : world) :
  exists t content, read_file file_path w = (t, Done content).
Proof.
  rewrite read_file_run.
  destruct (open_read w file_path Utf8); [eauto | | eauto].
  destruct (open_read w file_path Latin1); eauto.
Qed.

Lemma read_file_value (file_path : Path) (w : world) :
  read_file file_path w = (fst (read_file file_path w), Done (file_content w file_path)).
Proof. apply done_value, read_file_done. Qed.

(** The loop over the files never stops early: every file gives a part,
    made of what the reader returned for it. *)
Lemma output_parts_run (f : format) (files : list Path) (w : world) :
  output_parts f files w
  = (flat_map (fun p => fst (read_file p w)) files,
     Done (map (fun p => render (markdown w) f (file_content w p) p) files)).
Proof.
  induction files as [|p files IH]; [reflexivity|].
  cbn [output_parts flat_map map].
  destruct (read_file_done p w) as (t & c & E).
  unfold bind, markdown_lib, ret. rewrite IH.
  unfold file_content, value. rewrite E.
  cbn [fst snd app]. now rewrite app_nil_r.
Qed.

Lemma first_candidate_done (candidates : list Path) (w : world) :
  exists t p, first_candidate candidates w = (t, Done p).
Proof.
  induction candidates as [|c rest (t & p & IH)];
    [exists [], (cwd w); reflexivity|].
  cbn [first_candidate]. unfold bind, exists_, glob.
  destruct (path_exists w c); [|rewrite IH; eauto].
  destruct (glob_paths w c "README*"); [rewrite IH; eauto|].
  unfold ret. eauto.
Qed.

Lemma search_candidates_done (w : world) :
  exists t p, search_candidates w = (t, Done p).
Proof.
  unfold search_candidates, bind, Path_home, Path_cwd.
  destruct (first_candidate_done
              [joinpath (home w) ".dotfiles-public"; joinpath (home w) ".dotfiles"; cwd w] w)
    as (t & p & E).
  rewrite E. eauto.
Qed.

Lemma find_dotfiles_dir_done (w : world) :
  exists t p, find_dotfiles_dir w = (t, Done p).
Proof.
  destruct (search_candidates_done w) as (t & p & S).
  unfold find_dotfiles_dir, bind, os_environ_get.
  destruct (truthy (environ w "DOTFILES_DIR")) as [d|]; [|rewrite S; eauto].
  unfold exists_, ret.
  destruct (path_exists w (of_string d)); [eauto | rewrite S; eauto].
Qed.

Lemma resolve_dir_done (a : args) (w : world) :
  exists t p, resolve_dir a w = (t, Done p).
Proof.
  unfold resolve_dir. destruct (truthy (args_dir a)); [unfold ret; eauto|].
  apply find_dotfiles_dir_done.
Qed.

Lemma get_aliases_done (w : world) :
  exists t s, get_aliases w = (t, Done s).
Proof.
  destruct (find_dotfiles_dir_done w) as (t & p & E).
  unfold get_aliases.
  destruct (path_exists w (joinpath p ".bash_aliases")) eqn:X; eexists _, _;
    (eapply bind_done; [exact E|]);
    (eapply bind_done; [reflexivity|]); rewrite X; cbn [negb].
  - eapply bind_done; [apply read_file_value | reflexivity].
  - reflexivity.
Qed.

Lemma get_aliases_value (w : world) :
  get_aliases w = (fst (get_aliases w), Done (aliases_text w)).
Proof. apply done_value, get_aliases_done. Qed.

(** The pager step: its trace and its end. *)
Lemma display_with_pager_run (content : string) (w : world) :
  display_with_pager content w = (pager_trace w content, pager_outcome w content).
Proof.
  unfold display_with_pager, try_except, bind, os_environ_get, pager_trace,
    pager_outcome, pager_argv.
  destruct (String.eqb (match environ w "PAGER" with Some v => v | None => "less" end) "less");
    unfold run; destruct (subprocess_run w _ content); reflexivity.
Qed.

Lemma show_output_run (a : args) (content : string) (w : world) :
  show_output a content w =
  if is_html (args_format a) || args_no_pager a || negb (is_terminal (args_format a))
  then ([Print content], Done tt)
  else (pager_trace w content, pager_outcome w content).
Proof.
  unfold show_output.
  destruct (args_format a), (args_no_pager a); cbn [is_html is_terminal negb orb];
    first [reflexivity | apply display_with_pager_run].
Qed.

Lemma show_aliases_run (a : args) (content : string) (w : world) :
  show_aliases a content w =
  if args_no_pager a || negb (is_terminal (args_format a))
  then ([Print content], Done tt)
  else (pager_trace w content, pager_outcome w content).
Proof.
  unfold show_aliases.
  destruct (args_format a), (args_no_pager a); cbn [is_terminal negb orb];
    first [reflexivity | apply display_with_pager_run].
Qed.

End Runs.

Section MainRun.

Lemma sorted_nil {A K} (lt : K -> K -> bool) (key : A -> K) (l : list A) :
  sorted lt key l = [] <-> l = [].
Proof.
  split; [|now intros ->].
  intros H. apply Permutation_nil. rewrite <- H at 1. apply sorted_perm.
Qed.

(** The run of [main], branch by branch. *)
Lemma main_run (a : args) (w : world) :
  main a w =
  let d := resolved_dir a w in
  if negb (path_exists w d) then
    ((start_trace a w ++ [Print (dir_not_found d)])%list, Raise (SystemExit 1))
  else if args_aliases a then
    ((start_trace a w ++ fst (get_aliases w)
      ++ fst (show_aliases a (aliases_text w) w))%list,
     snd (show_aliases a (aliases_text w) w))
  else
    match truthy (args_file a) with
    | Some f =>
        if negb (path_exists w (joinpath d f)) then
          ((start_trace a w
            ++ [Exists (joinpath d f); Print (file_not_found (joinpath d f))])%list,
           Raise (SystemExit 1))
        else
          ((start_trace a w ++ [Exists (joinpath d f)] ++ reads a w
            ++ fst (show_output a (final_output a w) w))%list,
           snd (show_output a (final_output a w) w))
    | None =>
        match discovered w d with
        | [] =>
            ((start_trace a w ++ map (Glob d) doc_patterns
              ++ [Print (no_docs_found d)])%list, Raise (SystemExit 1))
        | _ :: _ =>
            ((start_trace a w ++ map (Glob d) doc_patterns ++ reads a w
              ++ fst (show_output a (final_output a w) w))%list,
           snd (show_output a (final_output a w) w))
        end
    end.
Proof.
  destruct (resolve_dir_done a w) as (tr & d & Er).
  assert (Hd : resolved_dir a w = d) by (unfold resolved_dir, value; now rewrite Er).
  unfold start_trace, reads, final_output, shown_files. rewrite Hd, Er. cbv zeta.
  cbn [fst]. unfold main.
  destruct (path_exists w d) eqn:Xd; cbn [negb].
  2:{ rewrite <- app_assoc.
      eapply bind_done; [exact Er|]. eapply bind_done; [reflexivity|].
      rewrite Xd. cbn [negb]. reflexivity. }
  assert (Start : forall (k : Path -> IO unit) t r,
             k d w = (t, r) ->
             (dotfiles_dir <- resolve_dir a ;;
              e <- exists_ dotfiles_dir ;;
              (if negb e then print (dir_not_found dotfiles_dir) ;;; sys_exit 1
               else ret tt) ;;; k dotfiles_dir) w
             = ((tr ++ [Exists d]) ++ t, r)%list).
  { intros k t r Hk. rewrite <- app_assoc.
    eapply bind_done; [exact Er|]. eapply bind_done; [reflexivity|].
    rewrite Xd. cbn [negb]. eapply (bind_done _ _ _ [] _ tt); [reflexivity|].
    exact Hk. }
  destruct (args_aliases a) eqn:Xa.
  { apply Start.
    eapply bind_done; [apply get_aliases_value|].
    now destruct (show_aliases a (aliases_text w) w). }
  destruct (truthy (args_file a)) as [f|] eqn:Xf.
  - destruct (path_exists w (joinpath d f)) eqn:Xp; cbn [negb]; apply Start;
      unfold files_to_show; rewrite Xf.
    + eapply bind_done.
      { unfold bind, exists_. rewrite Xp. reflexivity. }
      eapply bind_done; [apply output_parts_run|].
      now destruct (show_output a _ w).
    + unfold bind at 1. unfold bind at 1. unfold exists_ at 1. rewrite Xp. reflexivity.
  - assert (Ef := find_doc_files_run w d). fold (discovered w d) in Ef.
    destruct (discovered w d) as [|x l] eqn:Xdisc; apply Start;
      unfold files_to_show; rewrite Xf.
    + unfold bind at 1. unfold bind at 1. rewrite Ef. reflexivity.
    + destruct (sorted key_lt sort_key (x :: l)) as [|y l'] eqn:Xs.
      { apply sorted_nil in Xs. discriminate. }
      eapply bind_done.
      { unfold bind. rewrite Ef. unfold ret. now rewrite app_nil_r. }
      eapply bind_done; [apply output_parts_run|].
      now destruct (show_output a _ w).
Qed.

End MainRun.

(* ================================================================== *)
(** * The content reader *)

Section Reader.

(** C3.  [read_file] always returns: the text read as UTF-8; when that
    read fails to decode, the text read as Latin-1; and when a read fails
    in another way (the first, or the second after a decoding failure)
    the text of the error after [Error reading file: ].  So the loop
    over the files to show never stops at a file: each part is made from
    what [read_file] returned, error text included. *)
Theorem read_file_never_raises (file_path : Path) (w : world) :
  (exists t content, read_file file_path w = (t, Done content))
  /\ (forall s,
         open_read w file_path Utf8 = Text s ->
         read_file file_path w = ([Open file_path Utf8], Done s))
  /\ (forall m s,
         open_read w file_path Utf8 = Undecodable m ->
         open_read w file_path Latin1 = Text s ->
         read_file file_path w
         = ([Open file_path Utf8; Open file_path Latin1], Done s))
  /\ (forall m,
         open_read w file_path Utf8 = Unreadable m ->
         read_file file_path w
         = ([Open file_path Utf8], Done ("Error reading file: " ++ m)))
  /\ (forall m m',
         open_read w file_path Utf8 = Undecodable m ->
         open_read w file_path Latin1 = Unreadable m'
         \/ open_read w file_path Latin1 = Undecodable m' ->
         read_file file_path w
         = ([Open file_path Utf8; Open file_path Latin1],
            Done ("Error reading file: " ++ m')))
  /\ (forall f files,
         snd (output_parts f files w)
         = Done (map (fun p => render (markdown w) f (file_content w p) p) files)).
Proof.
  split; [apply read_file_done|].
  rewrite read_file_run.
  split; [|split; [|split; [|split]]].
  - now intros s ->.
  - now intros m s -> ->.
  - now intros m ->.
  - intros m m' -> [-> | ->]; reflexivity.
  - intros f files. now rewrite output_parts_run.
Qed.

Lemma read_file_never_raises_witness :
  read_file ["/"; "nowhere"] sample_world
  = ([Open ["/"; "nowhere"] Utf8],
     Done "Error reading file: [Errno 2] No such file or directory").
Proof.
  destruct (read_file_never_raises ["/"; "nowhere"] sample_world)
    as (_ & _ & _ & H & _).
  apply (H "[Errno 2] No such file or directory"). reflexivity.
Defined.

End Reader.

(* ================================================================== *)
(** * Exit codes *)

Section ExitCodes.

(** How a run ends, by the tests it makes. *)
Lemma main_outcome (a : args) (w : world) :
  snd (main a w) =
  if negb (path_exists w (resolved_dir a w)) then Raise (SystemExit 1)
  else if args_aliases a then
    (if uses_pager a then pager_outcome w (displayed a w) else Done tt)
  else match truthy (args_file a) with
       | Some f =>
           if negb (path_exists w (joinpath (resolved_dir a w) f))
           then Raise (SystemExit 1)
           else if uses_pager a then pager_outcome w (displayed a w) else Done tt
       | None =>
           match discovered w (resolved_dir a w) with
           | [] => Raise (SystemExit 1)
           | _ :: _ =>
               if uses_pager a then pager_outcome w (displayed a w) else Done tt
           end
       end.
Proof.
  rewrite main_run. cbv zeta. unfold displayed, uses_pager.
  rewrite show_aliases_run, show_output_run.
  destruct (negb (path_exists w (resolved_dir a w))); [reflexivity|].
  destruct (args_aliases a).
  { destruct (args_format a), (args_no_pager a); reflexivity. }
  destruct (truthy (args_file a)) as [f|].
  - destruct (negb (path_exists w (joinpath (resolved_dir a w) f))); [reflexivity|].
    destruct (args_format a), (args_no_pager a); reflexivity.
  - destruct (discovered w (resolved_dir a w)); [reflexivity|].
    destruct (args_format a), (args_no_pager a); reflexivity.
Qed.

Lemma pager_outcome_cases (w : world) (content : string) :
  (pager_outcome w content = Done tt
   /\ forall msg, subprocess_run w (pager_argv w) content <> Refused msg)
  \/ exists msg,
       pager_outcome w content = Raise (OSError msg)
       /\ subprocess_run w (pager_argv w) content = Refused msg.
Proof.
  unfold pager_outcome.
  destruct (subprocess_run w (pager_argv w) content) as [|m|c|m];
    first [left; split; [reflexivity | discriminate] | right; eauto].
Qed.

(** The status of a run, by the tests it makes, when the pager is not
    needed or can be started. *)
Lemma exit_code_run (a : args) (w : world) :
  (uses_pager a = true ->
   forall msg, subprocess_run w (pager_argv w) (displayed a w) <> Refused msg) ->
  snd (run_main a w) =
  if negb (path_exists w (resolved_dir a w)) then 1
  else if args_aliases a then 0
  else match truthy (args_file a) with
       | Some f => if negb (path_exists w (joinpath (resolved_dir a w) f)) then 1 else 0
       | None => match discovered w (resolved_dir a w) with
                 | [] => 1
                 | _ :: _ => 0
                 end
       end.
Proof.
  intros Hp.
  assert (E : snd (run_main a w) = exit_code (snd (main a w)))
    by (unfold run_main; now destruct (main a w)).
  rewrite E, main_outcome.
  assert (P : (if uses_pager a then pager_outcome w (displayed a w) else Done tt)
              = Done tt).
  { destruct (uses_pager a); [|reflexivity].
    destruct (pager_outcome_cases w (displayed a w)) as [[-> _] | (m & _ & R)];
      [reflexivity|]. now destruct (Hp eq_refl m). }
  rewrite P.
  destruct (negb (path_exists w (resolved_dir a w))); [reflexivity|].
  destruct (args_aliases a); [reflexivity|].
  destruct (truthy (args_file a)) as [f|].
  - now destruct (negb (path_exists w (joinpath (resolved_dir a w) f))).
  - now destruct (discovered w (resolved_dir a w)).
Qed.

(** Whether a run fails is decided by the tests it makes. *)
Lemma classic_failure (a : args) (w : world) : failure a w \/ ~ failure a w.
Proof.
  unfold failure.
  destruct (path_exists w (resolved_dir a w)) eqn:Xd; [|now left; left].
  destruct (args_aliases a) eqn:Xa.
  { right. intros [H | [[H _] | [H _]]]; discriminate. }
  destruct (truthy (args_file a)) as [f|] eqn:Xf.
  - destruct (path_exists w (joinpath (resolved_dir a w) f)) eqn:Xp.
    + right. intros [H | [[_ (f' & E & H)] | [_ [H _]]]]; try discriminate.
      injection E as <-. congruence.
    + left. right. left. eauto.
  - destruct (discovered w (resolved_dir a w)) as [|x l] eqn:Xdisc.
    + left. right. right. auto.
    + right. intros [H | [[_ (f' & E & H)] | [_ [_ H]]]]; discriminate.
Qed.

(** The program calls [sys.exit(1)] exactly in the failures; otherwise
    the run goes on to the display and ends as the display does. *)
Lemma main_failure (a : args) (w : world) :
  (failure a w -> snd (main a w) = Raise (SystemExit 1))
  /\ (~ failure a w ->
      snd (main a w)
      = if uses_pager a then pager_outcome w (displayed a w) else Done tt).
Proof.
  rewrite main_outcome. unfold failure.
  destruct (path_exists w (resolved_dir a w)) eqn:Xd; cbn [negb];
    [|split; [reflexivity | intros H; contradict H; now left]].
  destruct (args_aliases a) eqn:Xa.
  { split; [|reflexivity].
    intros [H | [[H _] | [H _]]]; discriminate. }
  destruct (truthy (args_file a)) as [f|] eqn:Xf.
  - destruct (path_exists w (joinpath (resolved_dir a w) f)) eqn:Xp; cbn [negb].
    + split; [|reflexivity].
      intros [H | [[_ (f' & E & H)] | [_ [H _]]]]; try discriminate.
      injection E as <-. congruence.
    + split; [reflexivity|]. intros H. contradict H. right. left. eauto.
  - destruct (discovered w (resolved_dir a w)) as [|x l] eqn:Xdisc.
    + split; [reflexivity|]. intros H. contradict H. right. right. auto.
    + split; [|reflexivity].
      intros [H | [[_ (f' & E & H)] | [_ [_ H]]]]; discriminate.
Qed.

Lemma main_exit_failure (a : args) (w : world) :
  snd (main a w) = Raise (SystemExit 1) <-> failure a w.
Proof.
  destruct (main_failure a w) as [Hyes Hno].
  split; [|exact Hyes]. intros H.
  destruct (classic_failure a w) as [F | F]; [exact F|].
  rewrite (Hno F) in H. destruct (uses_pager a); [|discriminate].
  destruct (pager_outcome_cases w (displayed a w)) as [[E _] | (m & E & _)];
    rewrite E in H; discriminate.
Qed.





(** A status of 1 outside the three conditions: the file named is there
    and is read, the pager is asked for and cannot be started, and the
    run ends by that error with nothing printed. *)
Lemma refused_pager_exit_code :
  ~ claimed_failure readme_through_pager empty_pager_world
  /\ snd (main readme_through_pager empty_pager_world)
     = Raise (OSError "[Errno 13] Permission denied: ''")
  /\ run_main readme_through_pager empty_pager_world
     = ([EnvGet "DOTFILES_DIR";
         Exists ["/"; "home"; "u"; ".dotfiles-public"];
         Exists dotfiles;
         Glob dotfiles "README*";
         Exists dotfiles;
         Exists (entry dotfiles "README.md");
         Open (entry dotfiles "README.md") Utf8;
         EnvGet "PAGER";
         Run [EmptyString]
             (format_terminal "# Dotfiles" (entry dotfiles "README.md"))],
        1).
Proof.
  split; [|split; reflexivity].
  intros [H | [(f & F & H) | H]]; try discriminate H.
  injection F as <-. discriminate H.
Qed.

End ExitCodes.

(* ================================================================== *)
(** * The output sink *)

Section Sink.










End Sink.

Section SinkClaims.



End SinkClaims.

(* ================================================================== *)
(** * The directory given and the aliases *)

Section DirOverride.

(** C8 at work.  With [--dir /work --aliases], in surroundings where the
    resolver finds [/home/u/.dotfiles], the run tests that [/work]
    exists and then resolves the directory again, without the argument:
    the aliases shown are those of [/home/u/.dotfiles]; the aliases file
    of [/work] is never opened. *)
Theorem get_aliases_ignores_dir :
  resolved_dir aliases_with_dir sample_world = work
  /\ fst (run_main aliases_with_dir sample_world)
     = [Exists work;
        EnvGet "DOTFILES_DIR";
        Exists ["/"; "home"; "u"; ".dotfiles-public"];
        Exists dotfiles;
        Glob dotfiles "README*";
        Exists (entry dotfiles ".bash_aliases");
        Open (entry dotfiles ".bash_aliases") Utf8;
        Print (aliases_report "alias ll='ls -la'")]
  /\ path_exists sample_world (entry work ".bash_aliases") = true
  /\ open_read sample_world (entry work ".bash_aliases") Utf8 = Text "alias b='make'"
  /\ ~ In (Open (entry work ".bash_aliases") Utf8)
          (fst (run_main aliases_with_dir sample_world)).
Proof.
  split; [reflexivity|]. split; [reflexivity|]. split; [reflexivity|].
  split; [reflexivity|].
  vm_compute. intuition discriminate.
Qed.

End DirOverride.

(* ================================================================== *)
(** * The directory resolver *)

Section Resolver.

Lemma filter_nil_existsb {A} (f : A -> bool) (l : list A) :
  filter f l = [] <-> existsb f l = false.
Proof.
  induction l as [|x l IH]; simpl; [tauto|].
  destruct (f x); simpl; [split; discriminate | exact IH].
Qed.

(** The glob of the resolver asks whether a name begins with README. *)
Lemma fnmatch_readme (n : string) : fnmatch "README*" n = String.prefix "README" n.
Proof. apply (fnmatch_literal_star "README" n). reflexivity. Qed.

Lemma glob_readme_none (w : world) (c : Path) :
  glob_paths w c "README*" = [] <->
  existsb (String.prefix "README") (scandir w c) = false.
Proof.
  unfold glob_paths. rewrite <- filter_nil_existsb.
  rewrite (filter_ext _ _ fnmatch_readme).
  destruct (filter (String.prefix "README") (scandir w c)); cbn [map];
    split; intros H; first [reflexivity | discriminate H].
Qed.

(** The loop over the candidates is a search for the first that
    qualifies. *)
Lemma first_candidate_value (cs : list Path) (w : world) :
  snd (first_candidate cs w)
  = Done (match find (qualifies w) cs with
          | Some c => c
          | None => cwd w
          end).
Proof.
  induction cs as [|c cs IH]; [reflexivity|].
  cbn [first_candidate find]. unfold qualifies at 1.
  unfold bind, exists_, glob.
  destruct (path_exists w c); cbn [andb].
  - destruct (glob_paths w c "README*") as [|x l] eqn:G.
    + apply glob_readme_none in G. rewrite G.
      destruct (first_candidate cs w). exact IH.
    + destruct (existsb (String.prefix "README") (scandir w c)) eqn:E;
        [reflexivity|].
      apply glob_readme_none in E. congruence.
  - destruct (first_candidate cs w). exact IH.
Qed.

Lemma search_candidates_value (w : world) :
  snd (search_candidates w) = Done (searched w).
Proof.
  unfold search_candidates, bind, Path_home, Path_cwd, searched, candidates.
  assert (H := first_candidate_value
                 [joinpath (home w) ".dotfiles-public";
                  joinpath (home w) ".dotfiles"; cwd w] w).
  destruct (first_candidate _ w). exact H.
Qed.

Lemma find_dotfiles_dir_value (w : world) :
  snd (find_dotfiles_dir w) = Done (resolution w).
Proof.
  assert (S := search_candidates_value w).
  unfold find_dotfiles_dir, resolution, bind, os_environ_get.
  destruct (truthy (environ w "DOTFILES_DIR")) as [d|].
  - unfold exists_. destruct (path_exists w (of_string d)); [reflexivity|].
    destruct (search_candidates w). exact S.
  - destruct (search_candidates w). exact S.
Qed.



Lemma searched_exists (w : world) :
  searched w = cwd w \/ path_exists w (searched w) = true.
Proof.
  unfold searched. destruct (find (qualifies w) (candidates w)) as [c|] eqn:F;
    [|now left].
  right. apply find_some in F as [_ Q]. unfold qualifies in Q.
  now apply andb_true_iff in Q as [Q _].
Qed.

Lemma resolution_exists (w : world) :
  resolution w = cwd w \/ path_exists w (resolution w) = true.
Proof.
  unfold resolution. destruct (truthy (environ w "DOTFILES_DIR")) as [d|];
    [|apply searched_exists].
  destruct (path_exists w (of_string d)) eqn:E; [now right | apply searched_exists].
Qed.

(** X2.  Without [--dir] the directory of a run is the one the resolver
    settles on, and that one exists unless it is a working directory
    that does not: with a working directory that exists the program
    never ends the run for want of the directory.  When it then calls
    [sys.exit(1)], the aliases were not asked for, and either the file
    named is missing or no file is named and the globs find nothing. *)
Theorem resolved_dir_exists (a : args) (w : world) :
  truthy (args_dir a) = None ->
  path_exists w (cwd w) = true ->
  resolved_dir a w = resolution w
  /\ path_exists w (resolved_dir a w) = true
  /\ (snd (main a w) = Raise (SystemExit 1) ->
      args_aliases a = false
      /\ ((exists f, truthy (args_file a) = Some f
                     /\ path_exists w (joinpath (resolution w) f) = false)
          \/ (truthy (args_file a) = None /\ discovered w (resolution w) = []))).
Proof.
  intros Hd Hc.
  assert (E : resolved_dir a w = resolution w).
  { unfold resolved_dir, value, resolve_dir. rewrite Hd.
    now rewrite find_dotfiles_dir_value. }
  assert (X : path_exists w (resolved_dir a w) = true).
  { rewrite E. destruct (resolution_exists w) as [-> | H]; assumption. }
  split; [exact E|]. split; [exact X|].
  intros H. apply main_exit_failure in H. rewrite <- E.
  destruct H as [H | [[Ha H] | [Ha H]]]; [congruence | auto | auto].
Qed.

Lemma resolved_dir_exists_witness :
  resolved_dir
    {| args_file := None; args_aliases := true; args_format := terminal;
       args_dir := None; args_no_pager := false |} sample_world
  = dotfiles.
Proof.
  destruct (resolved_dir_exists
              {| args_file := None; args_aliases := true; args_format := terminal;
                 args_dir := None; args_no_pager := false |} sample_world
              eq_refl eq_refl) as (E & _).
  rewrite E. reflexivity.
Defined.

End Resolver.

(* ================================================================== *)
(** * More on the file locator *)

Section LocatorMore.

Lemma doc_pattern_match (pat n : string) :
  In pat doc_patterns -> fnmatch pat n = String.prefix (drop_last pat) n.
Proof.
  intros Hin. destruct (doc_pattern_shape _ Hin) as [Hp Hs].
  rewrite Hp at 1. now apply fnmatch_literal_star.
Qed.

Lemma doc_prefixes_patterns : doc_prefixes = map drop_last doc_patterns.
Proof. reflexivity. Qed.

(** X3.  [find_doc_files] returns the entries of the directory whose
    name begins, letter for letter, with one of the eight words, and
    nothing else. *)
Theorem find_doc_files_membership (w : world) (directory p : Path) :
  exists files,
    snd (find_doc_files directory w) = Done files
    /\ (In p files <->
        exists n, In n (scandir w directory)
                  /\ p = entry directory n
                  /\ exists lit, In lit doc_prefixes /\ String.prefix lit n = true).
Proof.
  rewrite find_doc_files_run. eexists. split; [reflexivity|].
  assert (P := sorted_perm key_lt sort_key
                 (flat_map (glob_paths w directory) doc_patterns)).
  split.
  - intros H. apply (Permutation_in _ P) in H.
    apply in_flat_map in H as (pat & Hpat & H).
    unfold glob_paths in H. apply in_map_iff in H as (n & <- & H).
    apply filter_In in H as [Hn M].
    exists n. split; [exact Hn|]. split; [reflexivity|].
    exists (drop_last pat). split.
    + rewrite doc_prefixes_patterns. now apply in_map.
    + now rewrite <- (doc_pattern_match _ _ Hpat).
  - intros (n & Hn & -> & lit & Hlit & M).
    apply (Permutation_in _ (Permutation_sym P)).
    rewrite doc_prefixes_patterns in Hlit.
    apply in_map_iff in Hlit as (pat & <- & Hpat).
    apply in_flat_map. exists pat. split; [exact Hpat|].
    unfold glob_paths. apply in_map_iff. exists n. split; [reflexivity|].
    apply filter_In. split; [exact Hn|]. now rewrite (doc_pattern_match _ _ Hpat).
Qed.

Lemma filter_perm {A} (f : A -> bool) (l l' : list A) :
  Permutation l l' -> Permutation (filter f l) (filter f l').
Proof.
  induction 1 as [|x l l' _ IH|x y l|l l' l'' _ IH1 _ IH2]; simpl.
  - constructor.
  - destruct (f x); [now constructor | exact IH].
  - destruct (f x), (f y); try reflexivity. apply perm_swap.
  - now transitivity (filter f l').
Qed.

Lemma matching_names_perm (w w' : world) (directory : Path) :
  Permutation (scandir w directory) (scandir w' directory) ->
  Permutation (matching_names w directory) (matching_names w' directory).
Proof.
  intros H. unfold matching_names.
  induction doc_patterns as [|pat pats IH]; simpl; [constructor|].
  apply Permutation_app; [now apply filter_perm | exact IH].
Qed.

(** Two lists in the same order with the same elements are one list,
    when the order tells the elements apart. *)
Lemma sorted_unique {A} (R : A -> A -> Prop) (l1 l2 : list A) :
  (forall x y, In x l1 -> In y l1 -> R x y -> R y x -> x = y) ->
  StronglySorted R l1 -> StronglySorted R l2 -> Permutation l1 l2 -> l1 = l2.
Proof.
  revert l2. induction l1 as [|a l1 IH]; intros l2 Hanti S1 S2 P.
  - apply Permutation_nil in P. now subst.
  - destruct l2 as [|b l2];
      [apply Permutation_sym, Permutation_nil in P; discriminate|].
    inversion S1 as [|? ? S1' F1]; subst. inversion S2 as [|? ? S2' F2]; subst.
    rewrite Forall_forall in F1, F2.
    assert (E : a = b).
    { assert (Ha : In a (b :: l2)) by (apply (Permutation_in _ P); now left).
      assert (Hb : In b (a :: l1))
        by (apply (Permutation_in _ (Permutation_sym P)); now left).
      destruct Ha as [->|Ha]; [reflexivity|].
      destruct Hb as [->|Hb]; [reflexivity|].
      apply Hanti; [now left | now right | now apply F1 | now apply F2]. }
    subst b. f_equal.
    apply IH; [|assumption|assumption|now apply Permutation_cons_inv in P].
    intros x y Hx Hy. apply Hanti; now right.
Qed.

Lemma sorted_names_by_priority (l : list string) :
  StronglySorted names_by_priority (sorted key_lt (fun n => sort_key [n]) l).
Proof.
  apply Sorted_StronglySorted.
  { intros a b c. unfold names_by_priority. apply key_le_trans. }
  assert (H := sorted_Sorted key_lt (fun n => sort_key [n]) key_lt_asym l).
  induction H as [|x l' Hs IH Hhd]; constructor; [assumption|].
  destruct Hhd as [|y l' Hxy]; constructor.
  now apply key_lt_le.
Qed.

Lemma sort_key_name (p : Path) : snd (sort_key p) = name p.
Proof. unfold sort_key. now destruct (list_index _ _). Qed.

(** A name that a pattern picks is not the root. *)
Lemma matching_name_not_root (w : world) (directory : Path) (n : string) :
  In n (matching_names w directory) -> name [n] = n.
Proof.
  intros H. unfold matching_names in H.
  apply in_flat_map in H as (pat & Hpat & H). apply filter_In in H as [_ M].
  destruct (doc_pattern_prefix _ _ Hpat M) as [r ->].
  repeat (destruct Hpat as [<-|Hpat]; [reflexivity|]). destruct Hpat.
Qed.

Lemma names_by_priority_antisym (w : world) (directory : Path) (n m : string) :
  In n (matching_names w directory) -> In m (matching_names w directory) ->
  names_by_priority n m -> names_by_priority m n -> n = m.
Proof.
  intros Hn Hm. unfold names_by_priority, key_le.
  rewrite !sort_key_name, (matching_name_not_root _ _ _ Hn),
    (matching_name_not_root _ _ _ Hm).
  intros [H1 | [E1 H1]] [H2 | [E2 H2]]; try lia.
  now apply String.leb_antisym.
Qed.

(** X4.  The result of [find_doc_files] does not depend on the order in
    which the system lists the directory. *)
Theorem find_doc_files_listing_order (w w' : world) (directory : Path) :
  Permutation (scandir w directory) (scandir w' directory) ->
  snd (find_doc_files directory w) = snd (find_doc_files directory w').
Proof.
  intros H. rewrite !find_doc_files_names. f_equal. f_equal.
  assert (P := matching_names_perm w w' directory H).
  apply (sorted_unique names_by_priority).
  - intros n m Hn Hm.
    apply (names_by_priority_antisym w directory);
      apply (Permutation_in _ (sorted_perm key_lt (fun k => sort_key [k]) _));
      assumption.
  - apply sorted_names_by_priority.
  - apply sorted_names_by_priority.
  - rewrite !sorted_perm. exact P.
Qed.

Lemma find_doc_files_listing_order_witness :
  snd (find_doc_files dotfiles sample_world)
  = snd (find_doc_files dotfiles
           {| environ := environ sample_world;
              home := home sample_world;
              cwd := cwd sample_world;
              path_exists := path_exists sample_world;
              scandir := fun _ => [".bash_aliases"; "INSTALL.txt";
                                   "README.md"; "CHEATSHEET.md"];
              open_read := open_read sample_world;
              subprocess_run := subprocess_run sample_world;
              markdown := markdown sample_world |}).
Proof.
  apply find_doc_files_listing_order. cbn.
  apply Permutation_sym.
  apply (Permutation_cons_app ["CHEATSHEET.md"; "README.md"; "INSTALL.txt"] []).
  apply (Permutation_cons_app ["CHEATSHEET.md"; "README.md"] []).
  apply (Permutation_cons_app ["CHEATSHEET.md"] []).
  apply Permutation_refl.
Defined.

End LocatorMore.

(* ================================================================== *)
(** * More on the terminal formatter *)

Section TerminalMore.

Lemma digit_not_space (a : ascii) : Str.isdigit a = true -> Str.isspace a = false.
Proof.
  destruct a as [b0 b1 b2 b3 b4 b5 b6 b7].
  destruct b0, b1, b2, b3, b4, b5, b6, b7; intros H;
    first [reflexivity | discriminate H].
Qed.

Lemma startswith_first_char (line rest : string) (a : ascii) :
  Str.startswith line (String a rest) = true -> Str.first_char line = Some a.
Proof.
  unfold Str.startswith. intros H. apply prefix_elim in H as [r ->]. reflexivity.
Qed.

(** Trimming keeps a first character that is no whitespace. *)
Lemma strip_first_char (line : string) (a : ascii) :
  Str.first_char line = Some a -> Str.isspace a = false ->
  Str.first_char (Str.strip line) = Some a.
Proof.
  destruct line as [|b s]; [discriminate|]. intros [= ->] Ha.
  unfold Str.strip, Str.strip_by. cbn [Str.lstrip_by]. rewrite Ha.
  cbn [Str.rstrip_by]. rewrite Ha. reflexivity.
Qed.

(** A line of a class has the mark of the class after its leading
    whitespace. *)
Lemma fits_mark (c : line_class) (line : string) :
  c <> Plain -> fits c line = true ->
  exists a, Str.first_char (Str.strip line) = Some a /\ mark c a = true.
Proof.
  intros Hc H. destruct c; cbn [fits] in H; try congruence.
  - exists "#"%char. split; [|reflexivity].
    apply strip_first_char; [now apply startswith_first_char in H | reflexivity].
  - exists "#"%char. split; [|reflexivity].
    apply strip_first_char; [now apply startswith_first_char in H | reflexivity].
  - exists "#"%char. split; [|reflexivity].
    apply strip_first_char; [now apply startswith_first_char in H | reflexivity].
  - exists "`"%char. split; [|reflexivity].
    apply strip_first_char; [now apply startswith_first_char in H | reflexivity].
  - apply orb_true_iff in H as [H|H]; apply startswith_first_char in H; eauto.
  - apply orb_true_iff in H as [H|H]; [apply orb_true_iff in H as [H|H]|];
      apply startswith_first_char in H; eauto.
  - apply andb_true_iff in H as [H _]. apply andb_true_iff in H as [_ H].
    destruct (Str.first_char line) as [a|] eqn:F; [|discriminate].
    cbn [Str.holds] in H. exists a. split; [|exact H].
    apply strip_first_char; [exact F | now apply digit_not_space].
Qed.

(** The marks of two kinds of line are different characters. *)
Lemma mark_kind (c c' : line_class) (a : ascii) :
  c <> Plain -> c' <> Plain -> mark c a = true -> mark c' a = true ->
  c = c' \/ (rank c <= 2 /\ rank c' <= 2).
Proof.
  intros Hc Hc' M M'.
  destruct c; try congruence; destruct c'; try congruence;
    try (now left); try (right; cbn; lia);
    cbn [mark] in M, M'; exfalso;
    repeat match goal with
           | H : (_ || _) = true |- _ => apply orb_true_iff in H as [H|H]
           end;
    match goal with
    | H : Ascii.eqb ?x _ = true |- _ => apply Ascii.eqb_eq in H; subst x
    end;
    match goal with
    | H : _ = true |- _ => vm_compute in H; discriminate H
    end.
Qed.

Lemma fits_unique (line : string) (c c' : line_class) :
  c <> Plain -> c' <> Plain ->
  fits c line = true -> fits c' line = true -> c = c'.
Proof.
  intros Hc Hc' F F'.
  destruct (fits_mark c line Hc F) as (a & Ea & M).
  destruct (fits_mark c' line Hc' F') as (a' & Ea' & M').
  rewrite Ea in Ea'. injection Ea' as <-.
  destruct (mark_kind c c' a Hc Hc' M M') as [E | [R R']]; [exact E|].
  destruct c; cbn [rank] in R; try lia; destruct c'; cbn [rank] in R'; try lia;
    try reflexivity; exfalso; cbn [fits] in F, F'; unfold Str.startswith in F, F';
    apply prefix_elim in F as [r ->]; discriminate F'.
Qed.

(** X5.  The rules of the classes exclude one another: a line that fits
    the rule of one of the seven classes fits the rule of no other, so
    the order of the tests decides nothing. *)
Theorem terminal_rules_exclusive (line : string) (c c' : line_class) :
  c <> Plain -> c' <> Plain -> c <> c' ->
  fits c line = true -> fits c' line = false.
Proof.
  intros Hc Hc' Hne F. destruct (fits c' line) eqn:F'; [|reflexivity].
  exfalso. apply Hne. now apply (fits_unique line).
Qed.

Lemma terminal_rules_exclusive_witness :
  fits Bullet "$ - not a bullet" = false.
Proof.
  apply (terminal_rules_exclusive "$ - not a bullet" Prompt Bullet);
    first [discriminate | reflexivity].
Defined.

(** X6.  A line that begins with whitespace is no heading, no code fence
    and no numbered item, whatever follows: those are tested on the line
    as it is, and only the prompts and the bullets on the trimmed
    line. *)
Theorem indented_line_classes (line : string) (a : ascii) :
  Str.first_char line = Some a -> Str.isspace a = true ->
  classify line = Prompt \/ classify line = Bullet \/ classify line = Plain.
Proof.
  intros Fc Sp.
  assert (Raw : forall rest b, Str.startswith line (String b rest) = true ->
                               Str.isspace b = false -> False).
  { intros rest b H Hb. apply startswith_first_char in H. congruence. }
  destruct (classify line) eqn:C; auto;
    apply classify_first_fit in C as [F _]; cbn [fits] in F; exfalso.
  - now apply (Raw _ _ F).
  - now apply (Raw _ _ F).
  - now apply (Raw _ _ F).
  - now apply (Raw _ _ F).
  - apply andb_true_iff in F as [F _]. apply andb_true_iff in F as [_ F].
    rewrite Fc in F. cbn [Str.holds] in F. apply digit_not_space in F. congruence.
Qed.

Lemma indented_line_classes_witness :
  classify "  # Title" = Prompt \/ classify "  # Title" = Bullet
  \/ classify "  # Title" = Plain.
Proof.
  apply (indented_line_classes "  # Title" " "%char); reflexivity.
Defined.

Lemma join_split (c : ascii) (s : string) :
  Str.join (String c EmptyString) (Str.split c s) = s.
Proof.
  induction s as [|a s IH]; [reflexivity|].
  cbn [Str.split]. destruct (Ascii.eqb a c) eqn:E.
  - apply Ascii.eqb_eq in E. subst a.
    destruct (Str.split c s) as [|h t] eqn:S; [now apply split_not_nil in S|].
    change (Str.join (String c EmptyString) (EmptyString :: h :: t))
      with (String c (Str.join (String c EmptyString) (h :: t))).
    now rewrite IH.
  - destruct (Str.split c s) as [|h t] eqn:S; [now apply split_not_nil in S|].
    rewrite <- IH. now destruct t.
Qed.

Lemma join_app (sep : string) (l1 l2 : list string) :
  l1 <> [] -> l2 <> [] ->
  Str.join sep (l1 ++ l2) = Str.join sep l1 ++ sep ++ Str.join sep l2.
Proof.
  intros H1 H2. induction l1 as [|x l1 IH]; [congruence|].
  destruct l1 as [|y l1].
  - destruct l2; [congruence | reflexivity].
  - change (Str.join sep ((x :: y :: l1) ++ l2))
      with (x ++ sep ++ Str.join sep ((y :: l1) ++ l2)).
    rewrite IH by discriminate.
    change (Str.join sep (x :: y :: l1)) with (x ++ sep ++ Str.join sep (y :: l1)).
    now rewrite !append_assoc.
Qed.

(** X7.  A content all of whose lines are plain comes out of
    [format_terminal] as it went in, after the header: splitting into
    lines and joining them again loses nothing. *)
Theorem plain_content_unchanged (content : string) (file_path : Path) :
  Forall (fun l => classify l = Plain) (Str.split Str.nl_char content) ->
  format_terminal content file_path = header_text file_path ++ Str.nl ++ content.
Proof.
  intros H. unfold format_terminal, header_text.
  rewrite join_app; [|discriminate|].
  2:{ intros E. apply map_eq_nil in E. now apply split_not_nil in E. }
  f_equal. f_equal.
  rewrite <- (join_split Str.nl_char content) at 2. f_equal.
  induction H as [|l ls Hl _ IH]; [reflexivity|].
  cbn [map]. rewrite IH. f_equal.
  rewrite format_terminal_line_classify, Hl. reflexivity.
Qed.

Lemma plain_content_unchanged_witness :
  format_terminal ("See the manual." ++ Str.nl ++ "Nothing else.") ["docs"; "README"]
  = header_text ["docs"; "README"] ++ Str.nl
    ++ "See the manual." ++ Str.nl ++ "Nothing else.".
Proof.
  apply (plain_content_unchanged ("See the manual." ++ Str.nl ++ "Nothing else.")).
  repeat constructor.
Defined.

End TerminalMore.

(* ================================================================== *)
(** * More on the HTML formatter *)

Section HtmlMore.

Lemma escape_char_clean (c : ascii) :
  has_char "<"%char (escape_char c) = false
  /\ has_char ">"%char (escape_char c) = false.
Proof.
  unfold escape_char.
  destruct (Ascii.eqb c "&"%char); [split; reflexivity|].
  destruct (Ascii.eqb c "<"%char) eqn:L; [split; reflexivity|].
  destruct (Ascii.eqb c ">"%char) eqn:G; [split; reflexivity|].
  cbn [has_char]. now rewrite L, G.
Qed.

Lemma escape_not_empty (c : ascii) (s : string) : escape (String c s) <> EmptyString.
Proof.
  cbn [escape]. unfold escape_char.
  destruct (Ascii.eqb c "&"%char); [discriminate|].
  destruct (Ascii.eqb c "<"%char); [discriminate|].
  destruct (Ascii.eqb c ">"%char); discriminate.
Qed.

(** The escaped text tells the content: the three entities and the
    characters that stand for themselves never read as one another. *)
Lemma escape_injective (s s' : string) : escape s = escape s' -> s = s'.
Proof.
  revert s'. induction s as [|a s IH]; intros [|d s'] H.
  - reflexivity.
  - symmetry in H. now apply escape_not_empty in H.
  - now apply escape_not_empty in H.
  - cbn [escape] in H. unfold escape_char in H.
    destruct (Ascii.eqb a "&"%char) eqn:A1; [|destruct (Ascii.eqb a "<"%char) eqn:A2;
      [|destruct (Ascii.eqb a ">"%char) eqn:A3]];
    (destruct (Ascii.eqb d "&"%char) eqn:D1; [|destruct (Ascii.eqb d "<"%char) eqn:D2;
      [|destruct (Ascii.eqb d ">"%char) eqn:D3]]);
    repeat match goal with
           | E : Ascii.eqb ?x _ = true |- _ => apply Ascii.eqb_eq in E; subst x
           end;
    cbn in H; try discriminate H;
    injection H as; subst;
    first [ f_equal; now apply IH
          | discriminate
          | match goal with E : Ascii.eqb _ _ = false |- _ =>
              vm_compute in E; discriminate E end ].
Qed.

(** X8.  The escaped content, before the line breaks are put in, holds
    no angle bracket; and different contents give different escaped
    texts. *)
Theorem escape_safe (content : string) :
  has_char "<"%char (escape content) = false
  /\ has_char ">"%char (escape content) = false
  /\ (forall content', escape content = escape content' -> content = content').
Proof.
  split; [|split; [|intros content'; apply escape_injective]].
  - induction content as [|c s IH]; [reflexivity|].
    cbn [escape]. rewrite has_char_app, IH.
    now destruct (escape_char_clean c) as [-> _].
  - induction content as [|c s IH]; [reflexivity|].
    cbn [escape]. rewrite has_char_app, IH.
    now destruct (escape_char_clean c) as [_ ->].
Qed.

Lemma escape_safe_witness :
  has_char "<"%char (escape "<script>alert(1)</script>") = false.
Proof.
  destruct (escape_safe "<script>alert(1)</script>") as (H & _). exact H.
Defined.

End HtmlMore.

(* ================================================================== *)
(** * More on the alias extractor *)

Section AliasMore.

Lemma alias_step_grows (st : alias_state) (line : string) :
  exists rest,
    output (alias_step st line) = (output st ++ rest)%list
    /\ List.length rest <= 2.
Proof.
  unfold alias_step.
  destruct (Str.startswith (Str.strip line) "# "
            && negb (Str.startswith (Str.strip line) "##")).
  - destruct (negb (same_section _ (current_section st))).
    + eexists. split; [reflexivity|]. cbn. lia.
    + exists []. split; [now rewrite app_nil_r | cbn; lia].
  - destruct (Str.startswith (Str.strip line) "alias ");
      [|exists []; split; [now rewrite app_nil_r | cbn; lia]].
    destruct (Str.contains "=" (Str.drop 6 (Str.strip line)));
      [|exists []; split; [now rewrite app_nil_r | cbn; lia]].
    destruct (Str.split_first "="%char (Str.drop 6 (Str.strip line))) as [[n v]|].
    + eexists. split; [reflexivity|]. cbn. lia.
    + exists []. split; [now rewrite app_nil_r | cbn; lia].
Qed.

Lemma alias_fold_grows (lines : list string) (st : alias_state) :
  exists rest,
    output (fold_left alias_step lines st) = (output st ++ rest)%list
    /\ List.length rest <= 2 * List.length lines.
Proof.
  revert st. induction lines as [|l lines IH]; intros st.
  - exists []. split; [now rewrite app_nil_r | cbn; lia].
  - cbn [fold_left]. destruct (alias_step_grows st l) as (r1 & E1 & L1).
    destruct (IH (alias_step st l)) as (r2 & E2 & L2).
    exists (r1 ++ r2)%list. split.
    + now rewrite E2, E1, app_assoc.
    + rewrite length_app. cbn [List.length]. lia.
Qed.

(** X9.  The loop of [get_aliases] only ever adds lines: a turn keeps
    the lines put out so far and adds two at most.  So the report of any
    content begins with the title, Available Aliases: in bold green, and
    an empty line, and has at most two more lines for each line of the
    file. *)
Theorem aliases_report_begins_with_title (content : string) :
  (forall st line,
      exists added,
        output (alias_step st line) = (output st ++ added)%list
        /\ List.length added <= 2)
  /\ exists rest,
       aliases_report content
       = Str.join Str.nl
           ((Colors.BOLD ++ Colors.GREEN ++ "Available Aliases:" ++ Colors.RESET)
              :: EmptyString :: rest)
       /\ List.length rest <= 2 * List.length (Str.split Str.nl_char content).
Proof.
  split; [exact alias_step_grows|].
  unfold aliases_report.
  destruct (alias_fold_grows (Str.split Str.nl_char content)
              {| current_section := None; output := aliases_title |})
    as (rest & E & L).
  exists rest. split; [now rewrite E | exact L].
Qed.

(** X10.  A header line met twice in a row counts once: after it the
    same line changes nothing, whatever the state before. *)
Theorem header_line_idempotent (st : alias_state) (line : string) :
  Str.startswith (Str.strip line) "# " = true ->
  alias_step (alias_step st line) line = alias_step st line.
Proof.
  intros H. unfold alias_step.
  rewrite H, (header_not_double_hash _ H). cbn [negb andb].
  destruct (same_section (Str.strip (Str.drop 2 (Str.strip line)))
              (current_section st)) eqn:S; cbn [negb].
  - now rewrite S.
  - cbn [current_section same_section]. now rewrite String.eqb_refl.
Qed.

Lemma header_line_idempotent_witness :
  alias_step (alias_step alias_start "# Git") "# Git"
  = alias_step alias_start "# Git".
Proof. apply header_line_idempotent. reflexivity. Defined.

Lemma first_char_not_startswith (s rest : string) (a b : ascii) :
  Str.first_char s = Some a -> a <> b -> Str.startswith s (String b rest) = false.
Proof.
  intros F Hne. destruct (Str.startswith s (String b rest)) eqn:E; [|reflexivity].
  apply startswith_first_char in E. congruence.
Qed.

(** The text [read_file] returns for a failure is no header and no
    alias. *)
Lemma error_text_report (msg : string) :
  has_char Str.nl_char msg = false ->
  aliases_report ("Error reading file: " ++ msg) = Str.join Str.nl aliases_title.
Proof.
  intros H. unfold aliases_report.
  rewrite split_no_sep by (rewrite has_char_app, H; reflexivity).
  cbn [fold_left]. unfold alias_step.
  assert (F : Str.first_char (Str.strip ("Error reading file: " ++ msg)) = Some "E"%char)
    by (apply strip_first_char; reflexivity).
  rewrite (first_char_not_startswith _ _ _ _ F) by discriminate.
  rewrite (first_char_not_startswith _ _ _ _ F) by discriminate.
  reflexivity.
Qed.

(** What [get_aliases] returns, by the file it finds. *)
Lemma get_aliases_run (w : world) :
  get_aliases w
  = ((fst (find_dotfiles_dir w)
      ++ Exists (joinpath (resolution w) ".bash_aliases")
         :: (if path_exists w (joinpath (resolution w) ".bash_aliases")
             then fst (read_file (joinpath (resolution w) ".bash_aliases") w)
             else []))%list,
     Done (if path_exists w (joinpath (resolution w) ".bash_aliases")
           then aliases_report
                  (file_content w (joinpath (resolution w) ".bash_aliases"))
           else "No .bash_aliases file found.")).
Proof.
  destruct (find_dotfiles_dir_done w) as (t & p & E).
  assert (R := find_dotfiles_dir_value w). rewrite E in R. cbn [snd] in R.
  injection R as <-.
  unfold get_aliases. rewrite E. cbn [fst].
  destruct (path_exists w (joinpath p ".bash_aliases")) eqn:X.
  - eapply bind_done; [exact E|].
    eapply (bind_done _ _ _ [Exists _]); [reflexivity|].
    rewrite X. cbn [negb].
    rewrite <- (app_nil_r (fst (read_file _ w))).
    eapply bind_done; [apply read_file_value | reflexivity].
  - eapply bind_done; [exact E|].
    eapply (bind_done _ _ _ [Exists _] []); [reflexivity|].
    rewrite X. reflexivity.
Qed.



(** X12.  When the aliases file is there but cannot be read, the text
    of the failure (of one line) is taken for the content of the file;
    it is no header and no alias, so the report is the bare title and
    the failure is not shown. *)
Theorem get_aliases_unreadable_file (w : world) (msg : string) :
  path_exists w (joinpath (resolution w) ".bash_aliases") = true ->
  open_read w (joinpath (resolution w) ".bash_aliases") Utf8 = Unreadable msg ->
  has_char Str.nl_char msg = false ->
  snd (get_aliases w) = Done (Str.join Str.nl aliases_title).
Proof.
  intros X R Hm. rewrite get_aliases_run, X. cbn [snd]. f_equal.
  unfold file_content, value. rewrite read_file_run, R. cbn [snd].
  now apply error_text_report.
Qed.

Lemma get_aliases_unreadable_file_witness :
  snd (get_aliases
         {| environ := environ sample_world;
            home := home sample_world;
            cwd := cwd sample_world;
            path_exists := path_exists sample_world;
            scandir := scandir sample_world;
            open_read := fun _ _ => Unreadable "[Errno 13] Permission denied";
            subprocess_run := subprocess_run sample_world;
            markdown := None |})
  = Done (Str.join Str.nl aliases_title).
Proof.
  apply (get_aliases_unreadable_file _ "[Errno 13] Permission denied");
    reflexivity.
Defined.

End AliasMore.

Section AliasColumns.

Lemma length_append (a b : string) :
  String.length (a ++ b) = String.length a + String.length b.
Proof. induction a as [|x a IH]; simpl; [reflexivity | now rewrite IH]. Qed.

Lemma length_repeat (c : ascii) (n : nat) : String.length (Str.repeat c n) = n.
Proof. induction n as [|n IH]; simpl; [reflexivity | now rewrite IH]. Qed.

Lemma all_chars_repeat (c : ascii) (n : nat) :
  all_chars (Ascii.eqb c) (Str.repeat c n) = true.
Proof. induction n as [|n IH]; simpl; [reflexivity | now rewrite Ascii.eqb_refl]. Qed.

(** X13.  The name of an alias is put out whole: it is followed by
    spaces up to the fifteenth column when it is shorter, and by none
    when it is longer; it is never cut. *)
Theorem alias_name_never_cut (alias_name alias_cmd : string) :
  exists pad,
    alias_entry alias_name alias_cmd
    = "  " ++ Colors.CYAN ++ (Str.strip alias_name ++ pad) ++ Colors.RESET
      ++ " " ++ alias_cmd
    /\ all_chars (Ascii.eqb " "%char) pad = true
    /\ String.length (Str.strip alias_name ++ pad)
       = Nat.max 15 (String.length (Str.strip alias_name)).
Proof.
  exists (Str.repeat " "%char (15 - String.length (Str.strip alias_name))).
  split; [reflexivity|]. split; [apply all_chars_repeat|].
  rewrite length_append, length_repeat. lia.
Qed.

End AliasColumns.

(* ================================================================== *)
(** * More on the run *)

Section RunMore.

Lemma idle_app (t t' : list event) : idle (t ++ t') = idle t && idle t'.
Proof. apply forallb_app. Qed.

Lemma first_candidate_idle (cs : list Path) (w : world) :
  idle (fst (first_candidate cs w)) = true.
Proof.
  induction cs as [|c rest IH]; [reflexivity|].
  cbn [first_candidate]. unfold bind, exists_, glob.
  destruct (path_exists w c).
  - destruct (glob_paths w c "README*"); [|reflexivity].
    destruct (first_candidate rest w). exact IH.
  - destruct (first_candidate rest w). exact IH.
Qed.

Lemma find_dotfiles_dir_idle (w : world) : idle (fst (find_dotfiles_dir w)) = true.
Proof.
  assert (S : idle (fst (search_candidates w)) = true).
  { unfold search_candidates, bind, Path_home, Path_cwd.
    assert (H := first_candidate_idle
                   [joinpath (home w) ".dotfiles-public";
                    joinpath (home w) ".dotfiles"; cwd w] w).
    destruct (first_candidate _ w). exact H. }
  unfold find_dotfiles_dir, bind, os_environ_get.
  destruct (truthy (environ w "DOTFILES_DIR")) as [d|].
  - unfold exists_. destruct (path_exists w (of_string d)); [reflexivity|].
    destruct (search_candidates w). exact S.
  - destruct (search_candidates w). exact S.
Qed.

Lemma start_trace_idle (a : args) (w : world) : idle (start_trace a w) = true.
Proof.
  unfold start_trace, resolve_dir. rewrite idle_app.
  destruct (truthy (args_dir a)); [reflexivity|].
  now rewrite find_dotfiles_dir_idle.
Qed.

Lemma globs_idle (d : Path) (pats : list string) : idle (map (Glob d) pats) = true.
Proof. induction pats; [reflexivity | exact IHpats]. Qed.

Lemma run_main_trace (a : args) (w : world) : fst (run_main a w) = fst (main a w).
Proof. unfold run_main. now destruct (main a w). Qed.

(** The display never ends by [sys.exit]. *)
Lemma show_aliases_no_exit (a : args) (content : string) (w : world) (c : nat) :
  snd (show_aliases a content w) <> Raise (SystemExit c).
Proof.
  rewrite show_aliases_run. destruct (_ || _); [discriminate|].
  unfold pager_outcome. cbn [snd].
  destruct (subprocess_run w (pager_argv w) content); discriminate.
Qed.

Lemma show_output_no_exit (a : args) (content : string) (w : world) (c : nat) :
  snd (show_output a content w) <> Raise (SystemExit c).
Proof.
  rewrite show_output_run. destruct (_ || _); [discriminate|].
  unfold pager_outcome. cbn [snd].
  destruct (subprocess_run w (pager_argv w) content); discriminate.
Qed.

(** X14.  A run that the program ends by [sys.exit(1)] has opened no
    file and started no process, and has printed one thing, last: the
    message of the test that failed, which names the directory or the
    file. *)
Theorem failed_run_only_reports (a : args) (w : world) :
  snd (main a w) = Raise (SystemExit 1) ->
  exists t msg,
    fst (run_main a w) = (t ++ [Print msg])%list
    /\ idle t = true
    /\ ((path_exists w (resolved_dir a w) = false
         /\ msg = Colors.RED ++ "Error: Dotfiles directory not found: "
                  ++ to_string (resolved_dir a w) ++ Colors.RESET)
        \/ (exists f,
              truthy (args_file a) = Some f
              /\ path_exists w (joinpath (resolved_dir a w) f) = false
              /\ msg = Colors.RED ++ "Error: File not found: "
                       ++ to_string (joinpath (resolved_dir a w) f) ++ Colors.RESET)
        \/ (truthy (args_file a) = None
            /\ discovered w (resolved_dir a w) = []
            /\ msg = Colors.YELLOW ++ "No documentation files found in "
                     ++ to_string (resolved_dir a w) ++ Colors.RESET)).
Proof.
  rewrite run_main_trace, main_run. cbv zeta.
  assert (I := start_trace_idle a w).
  destruct (path_exists w (resolved_dir a w)) eqn:Xd; cbn [negb].
  2:{ intros _. eexists _, _. split; [reflexivity|]. split; [exact I|].
      left. split; reflexivity. }
  destruct (args_aliases a).
  { cbn [snd]. intros H. now apply show_aliases_no_exit in H. }
  destruct (truthy (args_file a)) as [f|].
  - destruct (path_exists w (joinpath (resolved_dir a w) f)) eqn:Xf; cbn [negb].
    { cbn [snd]. intros H. now apply show_output_no_exit in H. }
    intros _.
    exists (start_trace a w ++ [Exists (joinpath (resolved_dir a w) f)])%list,
           (file_not_found (joinpath (resolved_dir a w) f)).
    split; [cbn [fst]; now rewrite <- app_assoc|].
    split; [now rewrite idle_app, I|].
    right. left. exists f. repeat split. exact Xf.
  - destruct (discovered w (resolved_dir a w)).
    2:{ cbn [snd]. intros H. now apply show_output_no_exit in H. }
    intros _.
    exists (start_trace a w ++ map (Glob (resolved_dir a w)) doc_patterns)%list,
           (no_docs_found (resolved_dir a w)).
    split; [cbn [fst]; now rewrite <- app_assoc|].
    split; [now rewrite idle_app, I, globs_idle|].
    right. right. repeat split.
Qed.

Lemma failed_run_only_reports_witness :
  exists t msg,
    fst (run_main
           {| args_file := Some "missing.md"; args_aliases := false;
              args_format := terminal; args_dir := None; args_no_pager := false |}
           sample_world)
    = (t ++ [Print msg])%list
    /\ idle t = true
    /\ msg = Colors.RED ++ "Error: File not found: /home/u/.dotfiles/missing.md"
             ++ Colors.RESET.
Proof.
  destruct (failed_run_only_reports
              {| args_file := Some "missing.md"; args_aliases := false;
                 args_format := terminal; args_dir := None; args_no_pager := false |}
              sample_world eq_refl)
    as (t & msg & E & I & [[X _] | [(f & F & _ & M) | (F & _)]]);
    [discriminate X | | discriminate F].
  exists t, msg. split; [exact E|]. split; [exact I|].
  injection F as <-. exact M.
Defined.

Lemma filter_idle (t : list event) : idle t = true -> filter is_Open_utf8 t = [].
Proof.
  induction t as [|e t IH]; [reflexivity|]. cbn [idle forallb filter].
  intros H. apply andb_true_iff in H as [He Ht].
  destruct e as [| | |p enc| |]; cbn in He; try discriminate;
    cbn [is_Open_utf8]; now apply IH.
Qed.

Lemma read_file_opens (p : Path) (w : world) :
  filter is_Open_utf8 (fst (read_file p w)) = [Open p Utf8].
Proof. rewrite read_file_run. now destruct (open_read w p Utf8). Qed.

Lemma reads_open (files : list Path) (w : world) :
  filter is_Open_utf8 (flat_map (fun p => fst (read_file p w)) files)
  = map (fun p => Open p Utf8) files.
Proof.
  induction files as [|p files IH]; [reflexivity|].
  cbn [flat_map map]. now rewrite filter_app, read_file_opens, IH.
Qed.

Lemma show_output_no_open (a : args) (content : string) (w : world) :
  filter is_Open_utf8 (fst (show_output a content w)) = [].
Proof.
  rewrite show_output_run. destruct (_ || _); [reflexivity|].
  unfold pager_trace. cbn [fst].
  now destruct (subprocess_run w (pager_argv w) content).
Qed.

(** X15.  A run that shows files and ends normally shows at least one,
    and opens the files it shows, each once as UTF-8 and in the order of
    the display, before it displays anything. *)
Theorem shown_files_opened_in_order (a : args) (w : world) :
  snd (main a w) = Done tt -> args_aliases a = false ->
  shown_files a w <> []
  /\ filter is_Open_utf8 (fst (main a w))
     = map (fun p => Open p Utf8) (shown_files a w).
Proof.
  rewrite main_run. cbv zeta. intros D Ha. rewrite Ha in *.
  assert (I := filter_idle _ (start_trace_idle a w)).
  destruct (negb (path_exists w (resolved_dir a w))); [discriminate|].
  unfold reads, shown_files in *.
  destruct (truthy (args_file a)) as [f|].
  - destruct (negb (path_exists w (joinpath (resolved_dir a w) f))); [discriminate|].
    split; [discriminate|]. cbn [fst].
    rewrite !filter_app, I, reads_open, show_output_no_open.
    cbn. reflexivity.
  - destruct (discovered w (resolved_dir a w)) as [|x l] eqn:X; [discriminate|].
    split; [intros E; apply sorted_nil in E; discriminate|]. cbn [fst].
    rewrite !filter_app, I, reads_open, show_output_no_open.
    rewrite (filter_idle _ (globs_idle _ _)). cbn [app]. now rewrite app_nil_r.
Qed.

Lemma shown_files_opened_in_order_witness :
  filter is_Open_utf8
    (fst (main {| args_file := None; args_aliases := false; args_format := text;
                  args_dir := None; args_no_pager := true |} sample_world))
  = [Open (entry dotfiles "README.md") Utf8;
     Open (entry dotfiles "INSTALL.txt") Utf8;
     Open (entry dotfiles "CHEATSHEET.md") Utf8].
Proof.
  destruct (shown_files_opened_in_order
              {| args_file := None; args_aliases := false; args_format := text;
                 args_dir := None; args_no_pager := true |} sample_world
              eq_refl eq_refl) as [_ E].
  rewrite E. reflexivity.
Defined.

End RunMore.
